(** * djangae: the App Engine datastore backend (djangae/db/backends/appengine/base.py)

    A shallow embedding of the query translation layer: the unique-key
    fingerprinter, the WHERE-tree lowerer with its IN expansion and projection
    guard, and the cursor's [fetchmany].

    Python objects that the source shares and mutates ([datastore.Query]
    objects, the [all_filters] list) live in an explicit store, so aliasing
    is visible.  Exceptions are values of [Error]; a function that can raise
    returns a sum.  Calls to [logging] are left out.

    The datastore SDK is not part of the module.  Its queries are modelled as
    the dicts the source uses them as; what it validates when a filter is
    set or a multi-query is built is a parameter of the development
    ([CheckFilter], [CheckMultiQuery] of [Datastore]), so that every
    statement about an accepted query holds whatever the SDK checks. *)

From Stdlib Require Import ZArith String Ascii List Lia Permutation Sorted.
From stdpp Require Import gmap strings list sorting.

Local Open Scope list_scope.
Set Warnings "-register-all".

(** ** Python values and exceptions *)

(** The values that travel through filters, entities and cache keys.  Of a
    [datastore.Key] the module reads [id_or_name()] only. *)
Inductive Value : Type :=
| VNone
| VBool (b : bool)
| VInt (z : Z)
| VStr (s : string)
| VList (l : list Value)
| VKey (id_or_name : Value).

(** The exceptions the module raises or lets escape.  [IntegrityError] and
    [NotSupportedError] are declared as subclasses of [DatabaseError]; the
    last three are raised by the datastore SDK. *)
Inductive Error : Type :=
| DatabaseError (msg : string)
| IntegrityError (msg : string)
| NotSupportedError (msg : string)
| RuntimeError (msg : string)
| AssertionError
| AttributeError
| IndexError
| KeyError
| TypeError
| FieldDoesNotExist
| BadFilterError
| BadArgumentError
| OverflowError.

(** [isinstance(e, DatabaseError)]. *)
Definition is_DatabaseError (e : Error) : bool :=
  match e with
  | DatabaseError _ | IntegrityError _ | NotSupportedError _ => true
  | _ => false
  end.

Definition Res (A : Type) : Type := Error + A.

Definition ret {A} (a : A) : Res A := inr a.
Definition raise {A} (e : Error) : Res A := inl e.
Definition bind {A B} (m : Res A) (k : A -> Res B) : Res B :=
  match m with
  | inl e => inl e
  | inr a => k a
  end.

Notation "'let*' x ':=' m 'in' k" := (bind m (fun x => k))
  (at level 10, x pattern, m at level 200, k at level 200).

(** ** Model metadata ([model._meta]) *)

Record Field : Type := mkField {
  f_name : string;
  f_column : string;
  f_primary_key : bool;
  f_unique : bool;
  f_null : bool;
  f_db_type : string;          (* field.db_type(connection) *)
  f_rel : bool                 (* field.rel is not None *)
}.

Record Model : Type := mkModel {
  app_label : string;
  db_table : string;
  fields : list Field;
  pk : Field;
  unique_together : list (list string)
}.

(** [model._meta.get_field(name)] *)
Definition get_field (model : Model) (name : string) : Res Field :=
  match find (fun f => String.eqb (f_name f) name) (fields model) with
  | Some f => ret f
  | None => raise FieldDoesNotExist
  end.

(** [[f(x) for x in xs]] where [f] can raise. *)
Fixpoint mapM {A B} (f : A -> Res B) (xs : list A) : Res (list B) :=
  match xs with
  | [] => ret []
  | x :: xs' => let* y := f x in let* ys := mapM f xs' in ret (y :: ys)
  end.

(** ** 4.A Unique-key fingerprinter *)

Definition get_uniques_from_model (model : Model) : Res (list (list string)) :=
  let* uniques :=
    mapM (fun x => mapM (fun y => let* f := get_field model y in ret (f_column f)) x)
         (unique_together model) in
  ret (uniques ++ map (fun x => [f_column x]) (filter (fun x => f_unique x) (fields model))).

(** [sorted(fields_and_values, key=lambda x: x[0])].  Python's sort is stable
    and compares the byte strings lexicographically; a stable sort has one
    possible result, computed here by insertion from the right. *)
Fixpoint insert_by_field {V} (x : string * V) (l : list (string * V)) : list (string * V) :=
  match l with
  | [] => [x]
  | y :: l' => if String.leb (fst x) (fst y) then x :: y :: l' else y :: insert_by_field x l'
  end.

Definition sorted_by_field {V} (l : list (string * V)) : list (string * V) :=
  foldr insert_by_field [] l.

Section Fingerprint.
(** [str(value)], as applied by the [%s] conversion. *)
Variable py_str : Value -> string.

(** ['%s:%s' % (field, value)] *)
Definition key_part (fv : string * Value) : string :=
  fst fv +:+ ":" +:+ py_str (snd fv).

Definition generate_unique_key (model : Model) (fields_and_values : list (string * Value)) : string :=
  let fields_and_values := sorted_by_field fields_and_values in
  let key := app_label model +:+ "." +:+ db_table model +:+ "|" in
  key +:+ String.concat "|" (map key_part fields_and_values).
End Fingerprint.

(** ** Datastore objects and the cursor *)

(** Python objects are named by their position in the store. *)
Abbreviation loc := nat (only parsing).

(** A [datastore.Query].  It is a [dict] subclass (the source copies it with
    [update] and sets filters by item assignment): its filters are the items,
    keyed by ["<column> <op>"].  A [datastore.MultiQuery] is a [Query] too; it
    keeps the queries it was built from in [q_bound] and has no items. *)
Record Query : Type := mkQuery {
  q_kind : option string;
  q_filters : gmap string Value;
  q_projection : option (list string);     (* GetQueryOptions().projection *)
  q_bound : option (list loc)
}.

(** A [datastore.Entity]: a kind, the id-or-name of its key, its properties. *)
Record Entity : Type := mkEntity {
  e_kind : string;
  e_key : Value;
  e_props : gmap string Value
}.

(** An applied filter [(column, op, value)]. *)
Definition Triple : Type := string * string * Value.

(** What [self.results] can hold: the iterator a [Run] returns, consumed as it
    is read, or the one-element list built on a cache hit. *)
Inductive Results : Type :=
| RIter (rest : list Entity)
| RList (items : list Entity).

(** A continuation token, as returned by [Query.GetCursor]. *)
Abbreviation Token := nat (only parsing).

(** The datastore SDK ([google.appengine.api.datastore]), as far as the
    module calls it.  The SDK validates a filter before it stores it and a
    list of queries before it binds them; what it raises then, if anything,
    is [CheckFilter] and [CheckMultiQuery]. *)
Record Datastore : Type := mkDatastore {
  Run : Query -> nat -> option Token -> list Entity;   (* query.Run(limit=, start=) *)
  GetCursor : Query -> nat -> option Token -> Token;   (* query.GetCursor() after it *)
  RunMulti : list Query -> list Entity;                (* MultiQuery.Run() *)
  Put : list Entity -> list Value;                     (* id_or_name of the new keys *)
  CheckFilter : Query -> string -> Value -> option Error;   (* query[filter] = value *)
  CheckMultiQuery : list Query -> option Error              (* MultiQuery(queries, []) *)
}.

(** The [Cursor] object ([connection] plays no part and is left out). *)
Record Cursor : Type := mkCursor {
  results : option Results;
  queries : list loc;
  start_cursor : option Token;
  returned_ids : list Value;
  queried_fields : list string;
  query_done : bool;
  all_filters : list Triple;
  last_query_model : option Model
}.

(** [Cursor.__init__] *)
Definition Cursor_init : Cursor :=
  {| results := None; queries := []; start_cursor := None; returned_ids := [];
     queried_fields := []; query_done := true; all_filters := [];
     last_query_model := None |}.

(** Calls that leave the process. *)
Inductive Event : Type :=
| EvRun (q : Query) (limit : nat) (start : option Token)
| EvRunMulti (qs : list Query)
| EvPut (es : list Entity)
| EvCacheGet (key : string)
| EvCacheSet (key : string) (e : Entity).

(** The cursor, the store of [Query] objects, the process-wide cache
    ([django.core.cache.cache], its timeout left out) and the calls made. *)
Record World : Type := mkWorld {
  self : Cursor;
  heap : list Query;
  cache : gmap string Entity;
  trace : list Event
}.

Definition World_init : World :=
  {| self := Cursor_init; heap := []; cache := ∅; trace := [] |}.

(** Code that reads and writes the world and can raise. *)
Definition M (A : Type) : Type := World -> Res (A * World).

Definition retM {A} (a : A) : M A := fun w => inr (a, w).
Definition raiseM {A} (e : Error) : M A := fun _ => inl e.
Definition bindM {A B} (m : M A) (k : A -> M B) : M B :=
  fun w => match m w with
           | inl e => inl e
           | inr (a, w') => k a w'
           end.
Definition lift {A} (r : Res A) : M A :=
  fun w => match r with
           | inl e => inl e
           | inr a => inr (a, w)
           end.
Definition gets {A} (f : World -> A) : M A := fun w => inr (f w, w).
Definition modify (f : World -> World) : M unit := fun w => inr (tt, f w).

Notation "'let!' x ':=' m 'in' k" := (bindM m (fun x => k))
  (at level 10, x pattern, m at level 200, k at level 200).
Notation "m ';;' k" := (bindM m (fun _ => k))
  (at level 100, k at level 200, right associativity).

(** [for x in xs: body(x)], collecting what the bodies return. *)
Fixpoint forM {A B} (xs : list A) (body : A -> M B) : M (list B) :=
  match xs with
  | [] => retM []
  | x :: xs' => let! y := body x in let! ys := forM xs' body in retM (y :: ys)
  end.

(** Field updates of [self] and of the world. *)
Definition with_self (f : Cursor -> Cursor) (w : World) : World :=
  {| self := f (self w); heap := heap w; cache := cache w; trace := trace w |}.

Definition set_results (v : option Results) : M unit :=
  modify (with_self (fun c =>
    mkCursor v (queries c) (start_cursor c) (returned_ids c) (queried_fields c)
             (query_done c) (all_filters c) (last_query_model c))).
Definition set_queries (v : list loc) : M unit :=
  modify (with_self (fun c =>
    mkCursor (results c) v (start_cursor c) (returned_ids c) (queried_fields c)
             (query_done c) (all_filters c) (last_query_model c))).
Definition set_start_cursor (v : option Token) : M unit :=
  modify (with_self (fun c =>
    mkCursor (results c) (queries c) v (returned_ids c) (queried_fields c)
             (query_done c) (all_filters c) (last_query_model c))).
Definition set_returned_ids (v : list Value) : M unit :=
  modify (with_self (fun c =>
    mkCursor (results c) (queries c) (start_cursor c) v (queried_fields c)
             (query_done c) (all_filters c) (last_query_model c))).
Definition set_queried_fields (v : list string) : M unit :=
  modify (with_self (fun c =>
    mkCursor (results c) (queries c) (start_cursor c) (returned_ids c) v
             (query_done c) (all_filters c) (last_query_model c))).
Definition set_query_done (v : bool) : M unit :=
  modify (with_self (fun c =>
    mkCursor (results c) (queries c) (start_cursor c) (returned_ids c) (queried_fields c)
             v (all_filters c) (last_query_model c))).
Definition set_all_filters (v : list Triple) : M unit :=
  modify (with_self (fun c =>
    mkCursor (results c) (queries c) (start_cursor c) (returned_ids c) (queried_fields c)
             (query_done c) v (last_query_model c))).
Definition set_last_query_model (v : option Model) : M unit :=
  modify (with_self (fun c =>
    mkCursor (results c) (queries c) (start_cursor c) (returned_ids c) (queried_fields c)
             (query_done c) (all_filters c) v)).

Definition log_event (e : Event) : M unit :=
  modify (fun w => {| self := self w; heap := heap w; cache := cache w;
                      trace := trace w ++ [e] |}).

(** Store access.  Every location the code holds was allocated before, so the
    default of [obj] is never read. *)
Definition empty_Query : Query := mkQuery None ∅ None None.

Definition obj (h : list Query) (l : loc) : Query := default empty_Query (h !! l).

Definition deref (l : loc) : M Query := gets (fun w => obj (heap w) l).

Definition alloc (q : Query) : M loc :=
  fun w => inr (length (heap w),
                {| self := self w; heap := heap w ++ [q]; cache := cache w;
                   trace := trace w |}).

Definition store (l : loc) (q : Query) : M unit :=
  modify (fun w => {| self := self w; heap := <[l := q]> (heap w); cache := cache w;
                      trace := trace w |}).

(** ** The [datastore.Query] operations the module uses *)

(** [datastore.Query(kind, projection=projection)] *)
Definition Query_new (kind : option string) (projection : option (list string)) : Query :=
  mkQuery kind ∅ projection None.

(** [new.update(other)]: every filter of [other] is set on [new].  They are
    filters the SDK accepted on [other], on a new query of the same kind. *)
Definition Query_update (new other : Query) : Query :=
  mkQuery (q_kind new) (q_filters other ∪ q_filters new) (q_projection new) (q_bound new).

(** The item assignment of the [dict] underneath a query. *)
Definition dict_setitem (q : Query) (filter : string) (value : Value) : Query :=
  mkQuery (q_kind q) (<[filter := value]> (q_filters q)) (q_projection q) (q_bound q).

(** [query[filter] = value]: the SDK stores the filter when it has passed its
    validation. *)
Definition Query_setitem (ds : Datastore) (q : Query) (filter : string) (value : Value)
    : Res Query :=
  match CheckFilter ds q filter value with
  | Some e => raise e
  | None => ret (dict_setitem q filter value)
  end.

(** The envelope that binds the queries at [bound_queries]. *)
Definition envelope (bound_queries : list loc) : Query :=
  mkQuery None ∅ None (Some bound_queries).

(** [datastore.MultiQuery(bound_queries, [])], in the store [h] *)
Definition MultiQuery_new (ds : Datastore) (h : list Query) (bound_queries : list loc)
    : Res Query :=
  match CheckMultiQuery ds (map (obj h) bound_queries) with
  | Some e => raise e
  | None => ret (envelope bound_queries)
  end.

(** The truth value of a query object is that of a [dict]: false when it has
    no items. *)
Definition Query_truth (q : Query) : bool :=
  negb (bool_decide (q_filters q = ∅)).

(** [isinstance(q, datastore.MultiQuery)] *)
Definition is_MultiQuery (q : Query) : bool :=
  match q_bound q with Some _ => true | None => false end.

(** ** 4.C WHERE-tree lowerer *)

Definition OPERATORS_MAP : list (string * option string) :=
  [ ("exact", Some "="); ("gt", Some ">"); ("gte", Some ">="); ("lt", Some "<");
    ("lte", Some "<=");
    (* The following operators are supported with special code below. *)
    ("isnull", None); ("in", None); ("startswith", None); ("range", None);
    ("year", None) ].

(** [d.get(key)] on a dict written as an association list. *)
Fixpoint dict_get {V} (d : list (string * V)) (key : string) : option V :=
  match d with
  | [] => None
  | (k, v) :: d' => if String.eqb k key then Some v else dict_get d' key
  end.

(** [x in (a, b, ...)] for strings. *)
Definition str_in (x : string) (xs : list string) : bool :=
  existsb (String.eqb x) xs.

(** The [query] property of the cursor. *)
Definition query_get : M loc :=
  let! qs := gets (fun w => queries (self w)) in
  match qs with
  | q :: _ => retM q
  | [] => raiseM IndexError
  end.

Definition query_set (value : loc) : M unit :=
  let! qs := gets (fun w => queries (self w)) in
  match qs with
  | _ :: qs' => set_queries (value :: qs')
  | [] => set_queries [value]
  end.

Definition _update_projection_state (field : Field) (lookup_type : string) : M unit :=
  let db_type := f_db_type field in
  let! q0 := query_get in
  let! q := deref q0 in
  let projected_fields := q_projection q in
  match projected_fields with
  | None => retM tt
  | Some projected =>
    if bool_decide (projected = []) || negb (str_in (f_column field) projected) then retM tt
    else
      let disable_projection :=
        str_in db_type ["text"; "bytes"] || str_in lookup_type ["exact"; "in"] in
      if disable_projection then
        let! qs := gets (fun w => queries (self w)) in
        let! new_queries := forM qs (fun query =>
          let! old := deref query in
          alloc (Query_update (Query_new (q_kind old) None) old)) in
        set_queries new_queries
      else retM tt
  end.

(** The two parameters [all_filters] and [negated] of [_apply_filters] hold,
    depending on the call site, a bool or the list [self.all_filters]. *)
Inductive PyArg : Type :=
| ABool (b : bool)
| AFilters.

(** Truth value of such an argument. *)
Definition truth (a : PyArg) : M bool :=
  match a with
  | ABool b => retM b
  | AFilters => gets (fun w => negb (bool_decide (all_filters (self w) = [])))
  end.

(** [for v in value]: lists give their items, strings their characters. *)
Definition py_iter (value : Value) : Res (list Value) :=
  match value with
  | VList l => ret l
  | VStr s => ret (map (fun c => VStr (String c EmptyString)) (list_ascii_of_string s))
  | _ => raise TypeError
  end.

Section ApplyFilter.
Variable ds : Datastore.
(** The function called at the recursive call site. *)
Variable self_apply_filter :
  Model -> Field -> string -> PyArg -> Value -> option loc -> M (option Triple).

Definition _apply_filter_body (model : Model) (field : Field) (lookup_type : string)
    (negated : PyArg) (value : Value) (query_to_update : option loc) : M (option Triple) :=
  (* query_to_update = query_to_update or self.query *)
  let! query_to_update :=
    match query_to_update with
    | None => query_get
    | Some l => let! q := deref l in if Query_truth q then retM l else query_get
    end in
  match dict_get OPERATORS_MAP lookup_type with
  | None => raiseM (DatabaseError "Lookup type isn't supported.")
  | Some op =>
    let column := if f_primary_key field then "__key__" else f_column field in
    (* Disable projection queries if neccessary *)
    _update_projection_state field lookup_type ;;
    match op with
    | None =>
      if String.eqb lookup_type "in" then
        let! qs := gets (fun w => queries (self w)) in
        let! new_queries := forM qs (fun query =>
          let! vs := lift (py_iter value) in
          forM vs (fun v =>
            let! old := deref query in
            let! new_query :=
              alloc (Query_update (Query_new (Some (db_table model)) None) old) in
            self_apply_filter model field "exact" negated v (Some new_query) ;;
            retM new_query)) in
        set_queries (concat new_queries) ;;
        retM None
      else
        (* import pdb; pdb.set_trace() ; assert(op is not None) *)
        raiseM AssertionError
    | Some op =>
      let! q := deref query_to_update in
      let! q := lift (Query_setitem ds q (column +:+ " " +:+ op) value) in
      store query_to_update q ;;
      retM (Some (column, op, value))
    end
  end.
End ApplyFilter.

(** The recursive call is made with lookup ['exact'], which has an operator
    and does not recurse: two unfoldings are the whole function (see
    [_apply_filter_unfold]). *)
Definition _apply_filter (ds : Datastore) :
    Model -> Field -> string -> PyArg -> Value -> option loc -> M (option Triple) :=
  _apply_filter_body ds
    (_apply_filter_body ds
       (fun _ _ _ _ _ _ => raiseM (RuntimeError "maximum recursion depth exceeded"))).

(** ** The predicate tree *)

(** A leaf [(constraint, lookup_type, annotation, value)].  Of the constraint
    the lowerer reads [constraint.field] and what [constraint.process] returns:
    the alias, the column and the prepared value. *)
Record Leaf : Type := mkLeaf {
  c_alias : option string;
  c_column : string;
  c_field : Field;
  c_lookup_type : string;
  c_annotation : Value;
  c_value : Value
}.

Inductive Connector : Type := AND | OR.

(** A [django.utils.tree.Node], or a leaf tuple among its children. *)
Inductive Tree : Type :=
| TLeaf (child : Leaf)
| Node (connector : Connector) (negated : bool) (children : list Tree).

(** Slices of a string or a list. *)
Definition py_slice (drop_first drop_last : nat) (v : Value) : Res Value :=
  match v with
  | VStr s =>
    ret (VStr (String.substring drop_first
                 (String.length s - drop_first - drop_last) s))
  | VList l => ret (VList (take (length l - drop_first - drop_last) (drop drop_first l)))
  | _ => raise TypeError
  end.

Definition normalize_value (value : Value) (lookup_type : string) (annotation : Value)
    : Res Value :=
  (* Undo Field.get_db_prep_lookup putting most values in a list *)
  let* value :=
    match value with
    | VList l =>
      if negb (str_in lookup_type ["in"; "range"; "year"]) then
        if 1 <? length l then
          raise (DatabaseError "Only 'in'-filters can be used with lists.")
        else if String.eqb lookup_type "isnull" then ret annotation
        else match l with
             | v :: _ => ret v
             | [] => raise IndexError
             end
      else ret value
    | _ => ret value
    end in
  (* Remove percents added by Field.get_db_prep_lookup *)
  if str_in lookup_type ["startswith"; "istartswith"] then py_slice 0 1 value
  else if str_in lookup_type ["endswith"; "iendswith"] then py_slice 1 0 value
  else if str_in lookup_type ["contains"; "icontains"] then py_slice 1 1 value
  else ret value.

Definition _parse_child (model : Model) (child : Leaf) : Res (Field * string * Value) :=
  let lookup_type := c_lookup_type child in
  let alias := c_alias child in
  let column := c_column child in
  let field := c_field child in
  let joins :=
    match alias with
    | Some a => negb (String.eqb a "") && negb (String.eqb a (db_table model))
    | None => false
    end in
  if joins then
    raise (DatabaseError "This database doesn't support JOINs and multi-table inheritance.")
  else
    let* field :=
      if negb (String.eqb column (f_column field)) then
        if negb (f_primary_key field) then raise AssertionError
        else
          (* Remove _id *)
          let* field := get_field model (String.substring 0 (String.length column - 3) column) in
          if negb (f_rel field) then raise AssertionError else ret field
      else ret field in
    let* value := normalize_value (c_value child) lookup_type (c_annotation child) in
    ret (field, lookup_type, value).

(** [all_filters.append(x)]: a bool has no [append]. *)
Definition append_filter (target : PyArg) (x : Triple) : M unit :=
  match target with
  | AFilters =>
    let! fs := gets (fun w => all_filters (self w)) in set_all_filters (fs ++ [x])
  | ABool _ => raiseM AttributeError
  end.

(** [not a] *)
Definition py_not (a : PyArg) : M PyArg :=
  let! t := truth a in retM (ABool (negb t)).

(** The recursive call passes [negated] where [all_filters] is expected and
    [all_filters] where [negated] is: the two parameters trade places at
    every level.  The last two lines of the source toggle the local
    [negated] once more and have no effect. *)
Fixpoint _apply_filters (ds : Datastore) (model : Model) (where_ : Tree)
    (all_filters negated : PyArg) {struct where_} : M unit :=
  match where_ with
  | TLeaf _ => raiseM AttributeError
  | Node connector where_negated children =>
    let! negated := if where_negated then py_not negated else retM negated in
    let! t := truth negated in
    if negb t && negb (match connector with AND => true | OR => false end) then
      raiseM (DatabaseError "Only AND filters are supported")
    else
      (fix loop (children : list Tree) : M unit :=
         match children with
         | [] => retM tt
         | child :: rest =>
           match child with
           | Node _ _ _ => _apply_filters ds model child negated all_filters
           | TLeaf leaf =>
             let! (field, lookup_type, value) := lift (_parse_child model leaf) in
             let! applied_filter := _apply_filter ds model field lookup_type negated value None in
             match applied_filter with
             | Some x => append_filter all_filters x
             | None => retM tt   (* IN queries return None here *)
             end
           end ;;
           loop rest
         end) children
  end.

(** ** 4.B Entity cache, 4.D executor, 4.E write path *)

(** A model instance, seen through [field.get_db_prep_save]: applied to the
    raw attribute, or to what [field.pre_save] returns. *)
Record Instance : Type := mkInstance {
  prep_raw : Field -> Value;
  prep_pre_save : Field -> Value
}.

(** The ORM's query object. *)
Inductive OrmQuery : Type :=
| InsertQuery (fields : list Field) (raw : bool) (objs : list Instance)
| SelectQuery (select : list string) (where_ : Tree).

(** [l[l.index(x)] = y], doing nothing on [ValueError]. *)
Fixpoint replace_first (x y : string) (l : list string) : list string :=
  match l with
  | [] => []
  | z :: l' => if String.eqb z x then y :: l' else z :: replace_first x y l'
  end.

Definition Results_truth (r : Results) : bool :=
  match r with
  | RIter _ => true
  | RList items => negb (bool_decide (items = []))
  end.

(** [for entity in self.results]: an iterator is used up. *)
Definition Results_iterate (r : Results) : list Entity * Results :=
  match r with
  | RIter rest => (rest, RIter [])
  | RList items => (items, RList items)
  end.

Section Executor.
Variable py_str : Value -> string.
Variable ds : Datastore.

Definition cache_set (key : string) (entity : Entity) : M unit :=
  log_event (EvCacheSet key entity) ;;
  modify (fun w => {| self := self w; heap := heap w;
                      cache := <[key := entity]> (cache w); trace := trace w |}).

Definition cache_entity (model : Model) (entity : Entity) : M unit :=
  let! unique_combinations := lift (get_uniques_from_model model) in
  let! unique_keys := lift (mapM (fun fields =>
    let* key_parts := mapM (fun x =>
      match e_props entity !! x with
      | Some v => ret (x, v)
      | None => raise KeyError
      end) fields in
    ret (generate_unique_key py_str model key_parts)) unique_combinations) in
  forM unique_keys (fun key => cache_set key entity) ;;
  retM tt.

Definition get_entity_from_cache (key : string) : M (option Entity) :=
  log_event (EvCacheGet key) ;;
  gets (fun w => cache w !! key).

Definition django_instance_to_entity (model : Model) (fields : list Field) (raw : bool)
    (instance : Instance) : Res Entity :=
  let* field_values := mapM (fun field =>
    let value := if raw then prep_raw instance field else prep_pre_save instance field in
    if negb (f_null field) && negb (f_primary_key field)
       && match value with VNone => true | _ => false end
    then raise (IntegrityError "You can't set a non-nullable field to None!")
    else ret (f_column field, value)) fields in
  ret (mkEntity (db_table model) VNone
                (foldl (fun d kv => <[kv.1 := kv.2]> d) ∅ field_values)).

Definition execute (sql : string) (params : list Value) : M unit :=
  raiseM (RuntimeError "Can't execute traditional SQL: '%s'").

Definition execute_appengine_query (model : Model) (query : OrmQuery) : M unit :=
  match query with
  | InsertQuery fields raw objs =>
    let! entities := lift (mapM (django_instance_to_entity model fields raw) objs) in
    log_event (EvPut entities) ;;
    set_returned_ids (Put ds entities) ;;
    (* Now cache them, temporarily to help avoid consistency errors *)
    let! ids := gets (fun w => returned_ids (self w)) in
    forM (zip ids entities) (fun ke =>
      let entity := mkEntity (e_kind ke.2) ke.1
                             (<[f_column (pk model) := ke.1]> (e_props ke.2)) in
      cache_entity model entity) ;;
    set_query_done false
  | SelectQuery select where_ =>
    (* Store the fields we are querying on so we can process the results *)
    let no_select := bool_decide (select = []) in
    let queried := if no_select then map f_column (fields model) else select in
    (* Set the column name to __key__ *)
    let queried := replace_first (f_name (pk model)) "__key__" queried in
    set_queried_fields queried ;;
    (* in the first case projection is the very list that was just rewritten *)
    let projection := if no_select then None else Some queried in
    let! q := alloc (Query_new (Some (db_table model)) projection) in
    query_set q ;;
    set_all_filters [] ;;
    (* Apply filters *)
    _apply_filters ds model where_ AFilters (ABool false) ;;
    let! qs := gets (fun w => queries (self w)) in
    match qs with
    | _ :: _ :: _ =>
      let! h := gets heap in
      let! multi := lift (MultiQuery_new ds h qs) in
      let! m := alloc multi in set_queries [m]
    | _ => retM tt
    end ;;
    set_last_query_model (Some model) ;;
    set_query_done false
  end.

(** The cache probe of [fetchmany]: the entity of the last unique
    combination that the equality filters cover, if the cache has it. *)
Definition probe_cache (model : Model) (filters : list Triple) : M (option Entity) :=
  (* Get all the exact filters *)
  let exact_filters := filter (fun x : Triple => String.eqb x.1.2 "=") filters in
  let lookup : gmap string Value :=
    foldl (fun d (x : Triple) => <[x.1.1 := x.2]> d) ∅ exact_filters in
  let! unique_combinations := lift (get_uniques_from_model model) in
  let! found := forM unique_combinations (fun fields =>
    match mapM (fun field => match lookup !! field with
                             | Some v => ret (field, v)
                             | None => raise KeyError
                             end) fields with
    | inr final_key =>
      (* We've found a unique combination! *)
      let unique_key := generate_unique_key py_str model final_key in
      let! e := get_entity_from_cache unique_key in retM (Some e)
    | inl _ => retM None
    end) in
  retM (foldl (fun entity_from_cache r =>
                 match r with Some e => e | None => entity_from_cache end) None found).

Definition row_of (queried : list string) (entity : Entity) : list Value :=
  map (fun col => if String.eqb col "__key__" then e_key entity
                  else default VNone (e_props entity !! col)) queried.

Definition fetchmany (size : nat) : M (list (list Value)) :=
  let! done := gets (fun w => query_done (self w)) in
  if done then retM []
  else
    let! rs := gets (fun w => results (self w)) in
    match rs with
    | Some _ => retM tt
    | None =>
      let! qs := gets (fun w => queries (self w)) in
      if bool_decide (qs = []) then raiseM (DatabaseError "")
      else
        let! q0 := query_get in
        let! q := deref q0 in
        match q_bound q with
        | Some bound =>
          let! h := gets heap in
          let bound_queries := map (obj h) bound in
          log_event (EvRunMulti bound_queries) ;;
          set_results (Some (RIter (RunMulti ds bound_queries))) ;;
          set_query_done true
        | None =>
          (* Try and get the entity from the cache *)
          let! filters := gets (fun w => all_filters (self w)) in
          let! model := gets (fun w => last_query_model (self w)) in
          let! entity_from_cache :=
            match filters, model with
            | _ :: _, Some model => probe_cache model filters
            | _, _ => retM None
            end in
          match entity_from_cache with
          | None =>
            let! start := gets (fun w => start_cursor (self w)) in
            log_event (EvRun q size start) ;;
            let r := RIter (Run ds q size start) in
            set_results (Some r) ;;
            set_start_cursor (Some (GetCursor ds q size start)) ;;
            set_query_done (negb (Results_truth r))
          | Some e =>
            set_results (Some (RList [e])) ;;
            set_query_done true ;;
            set_start_cursor None
          end
        end
    end ;;
    let! rs := gets (fun w => results (self w)) in
    match rs with
    | None => raiseM TypeError
    | Some r =>
      let (entities, r') := Results_iterate r in
      set_results (Some r') ;;
      let! queried := gets (fun w => queried_fields (self w)) in
      retM (map (row_of queried) entities)
    end.

Definition lastrowid : M Value :=
  let! ids := gets (fun w => returned_ids (self w)) in
  match last ids with
  | Some k => retM k
  | None => raiseM IndexError
  end.
End Executor.

(** ** Vocabulary of the properties *)

(** The order [sorted] uses: pairs compared by field name only. *)
Definition field_le {V} (x y : string * V) : Prop := String.leb (fst x) (fst y) = true.

(** The pending native queries of the cursor, and what the executor finally
    runs: the queries bound in a multi-query envelope, or the query itself. *)
Definition pending (w : World) : list Query :=
  map (obj (heap w)) (queries (self w)).

Definition native_queries (w : World) : list Query :=
  flat_map (fun q => match q_bound q with
                     | Some bound => map (obj (heap w)) bound
                     | None => [q]
                     end) (pending w).

(** The projection carried by the object at a location. *)
Definition proj_at (w : World) (l : loc) : option (list string) :=
  q_projection (obj (heap w) l).

(** The projection of the object at a location and, for a multi-query, the
    queries it binds. *)
Definition shape_at (w : World) (l : loc) : option (list string) * option (list loc) :=
  (q_projection (obj (heap w) l), q_bound (obj (heap w) l)).

(** A plain query without projection. *)
Definition bare : option (list string) * option (list loc) := (None, None).

(** The location holds a plain query without projection. *)
Definition bare_at (w : World) (l : loc) : Prop :=
  shape_at w l = bare /\ l < length (heap w).

(** No pending query carries a projection (nor is an envelope). *)
Definition unprojected (w : World) : Prop :=
  Forall (bare_at w) (queries (self w)).

(** The lookup/type combinations that forbid a projection on the column. *)
Definition forbids_projection (field : Field) (lookup_type : string) : bool :=
  str_in (f_db_type field) ["text"; "bytes"] || str_in lookup_type ["exact"; "in"].

(** All leaves of a tree, nested nodes included, in traversal order. *)
Fixpoint leaves (t : Tree) : list Leaf :=
  match t with
  | TLeaf leaf => [leaf]
  | Node _ _ children => flat_map leaves children
  end.

(** The column a filter is stored under. *)
Definition filter_column (field : Field) : string :=
  if f_primary_key field then "__key__" else f_column field.

(** The triple a leaf contributes to the flat filter list: the one
    [_apply_filter] returns for a lookup that has an operator. *)
Definition leaf_filter (model : Model) (leaf : Leaf) : list Triple :=
  match _parse_child model leaf with
  | inr (field, lookup_type, value) =>
    match dict_get OPERATORS_MAP lookup_type with
    | Some (Some op) =>
      [(filter_column field, op, value)]
    | _ => []
    end
  | inl _ => []
  end.

(** The width of a leaf: the number of values of an [in] lookup, 1 for any
    other lookup. *)
Definition leaf_width (model : Model) (leaf : Leaf) : nat :=
  match _parse_child model leaf with
  | inr (_, lookup_type, value) =>
    if String.eqb lookup_type "in" then
      match py_iter value with
      | inr vs => length vs
      | inl _ => 1
      end
    else 1
  | inl _ => 1
  end.

Definition fan_out (model : Model) (t : Tree) : nat :=
  foldr Nat.mul 1 (map (leaf_width model) (leaves t)).

(** How a step of the lowering may change the pending queries: no object
    gains or loses its projection, and the list of pending queries is kept or
    replaced by queries without projection. *)
Definition lowering_step (w w' : World) : Prop :=
  (forall l, shape_at w' l = shape_at w l) /\
  length (heap w) <= length (heap w') /\
  (queries (self w') = queries (self w) \/ unprojected w').

(** Only the first pending query may carry a projection. *)
Definition tail_unprojected (w : World) : Prop :=
  Forall (bare_at w) (tail (queries (self w))).

(** No pending query has column [c] in its projection. *)
Definition avoids (c : string) (w : World) : Prop :=
  forall l p, l ∈ queries (self w) -> proj_at w l = Some p -> c ∉ p.

(** What lowering the leaves [ls], in this order, does to the world. *)
Definition lowered (model : Model) (ls : list Leaf) (w w' : World) : Prop :=
  lowering_step w w' /\
  all_filters (self w') = all_filters (self w) ++ flat_map (leaf_filter model) ls /\
  length (queries (self w'))
  = length (queries (self w)) * foldr Nat.mul 1 (map (leaf_width model) ls) /\
  (tail_unprojected w ->
   forall leaf field lookup_type value,
     leaf ∈ ls -> _parse_child model leaf = inr (field, lookup_type, value) ->
     forbids_projection field lookup_type = true -> avoids (f_column field) w').

(** [new] is what [datastore.Query(kind)] then [update(old)] makes of [old]:
    same kind, same filters, no projection. *)
Definition copy_without_projection (old new : Query) : Prop :=
  q_kind new = q_kind old /\ q_filters new = q_filters old /\
  q_projection new = None /\ q_bound new = None.

(** Every pending query is an object of the store. *)
Definition allocated (w : World) : Prop :=
  Forall (fun l => l < length (heap w)) (queries (self w)).

(** The location holds a query that is not a multi-query envelope. *)
Definition plain_at (w : World) (l : loc) : Prop :=
  q_bound (obj (heap w) l) = None /\ l < length (heap w).

(** The projection handed to the first native query: the selected columns
    with the primary key renamed, or none when nothing is selected. *)
Definition initial_projection (model : Model) (select : list string) : option (list string) :=
  if bool_decide (select = []) then None
  else Some (replace_first (f_name (pk model)) "__key__" select).

(** Every filter found in a native query is in the flat filter list. *)
Definition records_every_emitted_filter (w : World) : Prop :=
  forall q column op value,
    q ∈ native_queries w ->
    q_filters q !! (column +:+ " " +:+ op) = Some value ->
    (column, op, value) ∈ all_filters (self w).

(** The cursor and the stored queries are those of [w]. *)
Definition same_cursor (w w' : World) : Prop :=
  self w' = self w /\ heap w' = heap w.

(** The child is a leaf tuple, not a nested node. *)
Definition is_leaf (t : Tree) : Prop :=
  match t with
  | TLeaf _ => True
  | Node _ _ _ => False
  end.

(** The world after [query[filter] = value] on the object at [l]. *)
Definition with_filter (w : World) (l : loc) (filter : string) (value : Value) : World :=
  {| self := self w;
     heap := <[l := dict_setitem (obj (heap w) l) filter value]> (heap w);
     cache := cache w;
     trace := trace w |}.

(** The loop over the children of a node, as [_apply_filters] runs it. *)
Definition children_loop (ds : Datastore) (model : Model) (all_filters negated : PyArg)
    : list Tree -> M unit :=
  fix loop (children : list Tree) : M unit :=
    match children with
    | [] => retM tt
    | child :: rest =>
      match child with
      | Node _ _ _ => _apply_filters ds model child negated all_filters
      | TLeaf leaf =>
        let! (field, lookup_type, value) := lift (_parse_child model leaf) in
        let! applied_filter := _apply_filter ds model field lookup_type negated value None in
        match applied_filter with
        | Some x => append_filter all_filters x
        | None => retM tt
        end
      end ;;
      loop rest
    end.

(** Everything the lowering has no business with: the cache, the calls made
    so far, and the fields of the cursor other than [queries] and
    [all_filters]. *)
Definition outside_lowering (w : World) :=
  (cache w, trace w, results (self w), start_cursor (self w), returned_ids (self w),
   queried_fields (self w), query_done (self w), last_query_model (self w)).

Definition lowering_frame (w w' : World) : Prop :=
  outside_lowering w' = outside_lowering w.

(** A probe of the cache, as opposed to a call to the datastore. *)
Definition is_cache_get (ev : Event) : Prop :=
  match ev with
  | EvCacheGet _ => True
  | _ => False
  end.

(** The value [django_instance_to_entity] stores for a field. *)
Definition prepared (raw : bool) (instance : Instance) (field : Field) : Value :=
  if raw then prep_raw instance field else prep_pre_save instance field.

(** The key [cache_entity] files an entity under for a unique combination. *)
Definition unique_key_of (py_str : Value -> string) (model : Model) (entity : Entity)
    (columns : list string) : string :=
  generate_unique_key py_str model
    (map (fun x => (x, default VNone (e_props entity !! x))) columns).

(** The entity as it is cached after [Put]: with its key, also written to the
    primary-key column. *)
Definition with_key (model : Model) (key : Value) (entity : Entity) : Entity :=
  mkEntity (e_kind entity) key (<[f_column (pk model) := key]> (e_props entity)).

(** ** Concrete models, trees and services used in the examples *)

(** [str] on text values, the only values the examples render. *)
Definition str_of_text (v : Value) : string :=
  match v with
  | VStr s => s
  | _ => ""
  end.

Definition f_id : Field := mkField "id" "id" true true false "key" false.
Definition f_slug : Field := mkField "slug" "slug" false true false "string" false.
Definition f_title : Field := mkField "title" "title" false false false "string" false.
Definition f_body : Field := mkField "body" "body" false false true "text" false.

(** [Post(id PK, slug unique)] and [Doc(id PK, title, body)] of the spec's
    scenarios; [Article] has a slug and a title; [Tagged] declares [slug]
    unique twice. *)
Definition Post : Model := mkModel "blog" "post" [f_id; f_slug] f_id [].
Definition Doc : Model := mkModel "blog" "doc" [f_id; f_title; f_body] f_id [].
Definition Article : Model := mkModel "blog" "article" [f_id; f_slug; f_title] f_id [].
Definition Tagged : Model := mkModel "blog" "tagged" [f_id; f_slug] f_id [["slug"]].

(** A leaf on a field of the queried model; [get_db_prep_lookup] has put the
    value in a list. *)
Definition leaf_on (field : Field) (lookup_type : string) (value : Value) : Tree :=
  TLeaf (mkLeaf None (f_column field) field lookup_type VNone value).

Definition e_first : Entity := mkEntity "post" (VInt 1) {[ "slug" := VStr "a" ]}.
Definition e_second : Entity := mkEntity "post" (VInt 2) {[ "slug" := VStr "b" ]}.

(** Two checks of the SDK's [Query.__setitem__]: an integer has to fit in 64
    bits ([OverflowError]), and a filter on [__key__] takes keys only
    ([BadFilterError]). *)
Fixpoint fits_int64 (v : Value) : bool :=
  match v with
  | VInt z => (Z.leb (- 2 ^ 63) z && Z.ltb z (2 ^ 63))%Z
  | VList l => forallb fits_int64 l
  | _ => true
  end.

Definition is_Key (v : Value) : bool :=
  match v with
  | VKey _ => true
  | _ => false
  end.

Definition keys_only (v : Value) : bool :=
  match v with
  | VList l => forallb is_Key l
  | _ => is_Key v
  end.

(** The property a filter ["<property> <op>"] is on: the text before the
    first space. *)
Fixpoint filter_property (filter : string) : string :=
  match filter with
  | EmptyString => EmptyString
  | String c rest => if Ascii.eqb c " " then EmptyString else String c (filter_property rest)
  end.

Definition check_filter (q : Query) (filter : string) (value : Value) : option Error :=
  if negb (fits_int64 value) then Some OverflowError
  else if String.eqb (filter_property filter) "__key__" && negb (keys_only value)
       then Some BadFilterError
       else None.

(** A multi-query binds thirty queries at most. *)
Definition check_multi_query (qs : list Query) : option Error :=
  if 30 <? length qs then Some BadArgumentError else None.

(** A datastore holding two posts; [Run] honours its limit. *)
Definition two_posts : Datastore :=
  mkDatastore (fun _ limit _ => take limit [e_first; e_second])
              (fun _ limit _ => limit)
              (fun _ => [e_first; e_second])
              (fun es => map (fun _ => VInt 7) es)
              check_filter
              check_multi_query.

(** [slug IN ("a", "b")] and [slug IN ("a", "b", "c")] *)
Definition slug_in_a_b : Tree :=
  Node AND false [leaf_on f_slug "in" (VList [VStr "a"; VStr "b"])].
Definition slug_in_a_b_c : Tree :=
  Node AND false [leaf_on f_slug "in" (VList [VStr "a"; VStr "b"; VStr "c"])].

(** [title = "x" AND slug IN ("a", "b")] *)
Definition title_and_slugs : Tree :=
  Node AND false [leaf_on f_title "exact" (VList [VStr "x"]);
                  leaf_on f_slug "in" (VList [VStr "a"; VStr "b"])].

(** [id = key], for a key of the datastore and for a plain integer *)
Definition id_is (value : Value) : Tree :=
  Node AND false [leaf_on f_id "exact" (VList [value])].

(** [slug = "a"] *)
Definition slug_is_a : Tree :=
  Node AND false [leaf_on f_slug "exact" (VList [VStr "a"])].

(** The world after running a select on a new cursor, or the world the
    cursor started in when the query is refused. *)
Definition after_select (model : Model) (select : list string) (where_ : Tree) : World :=
  match execute_appengine_query str_of_text two_posts model (SelectQuery select where_)
                                World_init with
  | inr (_, w) => w
  | inl _ => World_init
  end.

(** [Comment(id PK, author FK)]; a leaf on the parent's key under the column
    [author_id], as a [parent.child_set] query produces it. *)
Definition f_author : Field := mkField "author" "author_id" false false false "key" true.
Definition Comment : Model := mkModel "blog" "comment" [f_id; f_author] f_id [].
Definition author_leaf : Leaf := mkLeaf None "author_id" f_id "exact" VNone (VList [VInt 7]).

(** The world after a [fetchmany], or the same world when it raises. *)
Definition after_fetch (size : nat) (w : World) : World :=
  match fetchmany str_of_text two_posts size w with
  | inr (_, w') => w'
  | inl _ => w
  end.

(** Two instances of [Post]: one with nothing set, one with a slug. *)
Definition draft : Instance := mkInstance (fun _ => VNone) (fun _ => VNone).

Definition hello : Instance :=
  mkInstance (fun f => if String.eqb (f_name f) "slug" then VStr "hello" else VNone)
             (fun f => if String.eqb (f_name f) "slug" then VStr "hello" else VNone).

(** ** Properties of the fingerprinter *)

Section StringOrder.
Lemma ascii_compare_eq a b : Ascii.compare a b = Eq -> a = b.
Proof. apply Ascii.compare_eq_iff. Qed.

Lemma ascii_compare_refl a : Ascii.compare a a = Eq.
Proof. unfold Ascii.compare. apply N.compare_refl. Qed.

Lemma ascii_compare_lt_trans a b c :
  Ascii.compare a b = Lt -> Ascii.compare b c = Lt -> Ascii.compare a c = Lt.
Proof.
  unfold Ascii.compare. rewrite !N.compare_lt_iff. apply N.lt_trans.
Qed.

Lemma string_compare_lt_trans s1 : forall s2 s3,
  String.compare s1 s2 = Lt -> String.compare s2 s3 = Lt -> String.compare s1 s3 = Lt.
Proof.
  induction s1 as [|a s1 IH]; intros [|b s2] [|c s3]; simpl; try congruence.
  destruct (Ascii.compare a b) eqn:Hab; try discriminate;
    destruct (Ascii.compare b c) eqn:Hbc; try discriminate; intros H12 H23.
  - apply ascii_compare_eq in Hab, Hbc. subst. rewrite ascii_compare_refl. eauto.
  - apply ascii_compare_eq in Hab. subst. now rewrite Hbc.
  - apply ascii_compare_eq in Hbc. subst. now rewrite Hab.
  - now rewrite (ascii_compare_lt_trans _ _ _ Hab Hbc).
Qed.

Lemma string_leb_trans s1 s2 s3 :
  String.leb s1 s2 = true -> String.leb s2 s3 = true -> String.leb s1 s3 = true.
Proof.
  unfold String.leb.
  destruct (String.compare s1 s2) eqn:H12; try discriminate;
    destruct (String.compare s2 s3) eqn:H23; try discriminate; intros _ _.
  - apply String.compare_eq_iff in H12, H23. subst.
    destruct (String.compare s3 s3) eqn:E; auto.
    pose proof (String.compare_antisym s3 s3) as H. rewrite E in H. discriminate H.
  - apply String.compare_eq_iff in H12. subst. now rewrite H23.
  - apply String.compare_eq_iff in H23. subst. now rewrite H12.
  - now rewrite (string_compare_lt_trans _ _ _ H12 H23).
Qed.
End StringOrder.

Section SortedByField.
Context {V : Type}.
Implicit Types (x : string * V) (l : list (string * V)).

Lemma field_le_trans x y z : field_le x y -> field_le y z -> field_le x z.
Proof. apply string_leb_trans. Qed.

Lemma field_le_total x y : field_le x y \/ field_le y x.
Proof. apply String.leb_total. Qed.

Lemma insert_by_field_perm x l : insert_by_field x l ≡ₚ x :: l.
Proof.
  induction l as [|y l IH]; simpl; [done|].
  destruct (String.leb x.1 y.1); [done|].
  rewrite IH. apply perm_swap.
Qed.

Lemma sorted_by_field_perm l : sorted_by_field l ≡ₚ l.
Proof.
  induction l as [|x l IH]; simpl; [done|].
  rewrite insert_by_field_perm. by f_equiv.
Qed.

Lemma insert_by_field_sorted x l :
  StronglySorted field_le l -> StronglySorted field_le (insert_by_field x l).
Proof.
  induction 1 as [|y l Hl IH Hy]; simpl.
  - repeat constructor.
  - destruct (String.leb x.1 y.1) eqn:E.
    + constructor; [by constructor|].
      constructor; [exact E|].
      eapply Forall_impl; [exact Hy|]. intros z Hz.
      eapply field_le_trans; [exact E|exact Hz].
    + constructor; [exact IH|].
      rewrite insert_by_field_perm. constructor; [|exact Hy].
      destruct (field_le_total x y) as [H|H]; [|exact H].
      unfold field_le in H. congruence.
Qed.

Lemma sorted_by_field_sorted l : StronglySorted field_le (sorted_by_field l).
Proof.
  induction l as [|x l IH]; simpl; [constructor|].
  by apply insert_by_field_sorted.
Qed.

(** Sorting forgets the input order as soon as a field name determines
    its pair. *)
Lemma sorted_by_field_permutation l1 l2 :
  (forall x y, x ∈ l1 -> y ∈ l1 -> x.1 = y.1 -> x = y) ->
  l1 ≡ₚ l2 -> sorted_by_field l1 = sorted_by_field l2.
Proof.
  intros Hdet Hperm.
  apply (StronglySorted_unique_strong field_le); try apply sorted_by_field_sorted.
  - intros x y Hx Hy Hxy Hyx.
    rewrite sorted_by_field_perm in Hx.
    rewrite sorted_by_field_perm, <- Hperm in Hy.
    apply Hdet; [done..|]. by apply String.leb_antisym.
  - by rewrite !sorted_by_field_perm.
Qed.
End SortedByField.

(** ** Reasoning about [M] *)

Lemma bindM_inr {A B} (m : M A) (k : A -> M B) w b w' :
  bindM m k w = inr (b, w') ->
  exists a w1, m w = inr (a, w1) /\ k a w1 = inr (b, w').
Proof.
  unfold bindM. destruct (m w) as [e|[a w1]]; [discriminate|]. eauto.
Qed.

Lemma lift_inr {A} (r : Res A) w a w' :
  lift r w = inr (a, w') -> r = inr a /\ w' = w.
Proof. unfold lift. destruct r; [discriminate|]. intros [= -> ->]. done. Qed.

Lemma bind_inr {A B} (m : Res A) (k : A -> Res B) b :
  bind m k = inr b -> exists a, m = inr a /\ k a = inr b.
Proof. destruct m; [discriminate|]. simpl. eauto. Qed.

Lemma deref_inr l w q w' : deref l w = inr (q, w') -> w' = w /\ q = obj (heap w) l.
Proof. intros [= <- <-]. done. Qed.

(** Decompose a successful run along its binds. *)
Ltac run_prim H :=
  lazymatch type of H with
  | retM _ _ = inr _ => injection H as <- <-
  | gets _ _ = inr _ => injection H as <- <-
  | modify _ _ = inr _ => injection H as <- <-
  | raiseM _ _ = inr _ => discriminate H
  | deref _ _ = inr _ => apply deref_inr in H; destruct H as [-> ->]
  | lift _ _ = inr _ =>
    let E := fresh "Hpure" in apply lift_inr in H; destruct H as [E ->]
  end.

(** The same for the writes to [self], the store and the trace. *)
Ltac run_write H :=
  lazymatch type of H with
  | set_results _ _ = inr _ => injection H as <- <-
  | set_queries _ _ = inr _ => injection H as <- <-
  | set_start_cursor _ _ = inr _ => injection H as <- <-
  | set_returned_ids _ _ = inr _ => injection H as <- <-
  | set_queried_fields _ _ = inr _ => injection H as <- <-
  | set_query_done _ _ = inr _ => injection H as <- <-
  | set_all_filters _ _ = inr _ => injection H as <- <-
  | set_last_query_model _ _ = inr _ => injection H as <- <-
  | log_event _ _ = inr _ => injection H as <- <-
  | alloc _ _ = inr _ => injection H as <- <-
  | store _ _ _ = inr _ => injection H as <- <-
  end.

Ltac run_step H :=
  lazymatch type of H with
  | bindM _ _ _ = inr _ =>
    let a := fresh "a" in let w := fresh "w" in
    let H1 := fresh "Hrun" in
    apply bindM_inr in H; destruct H as (a & w & H1 & H);
    try run_prim H1
  | _ => run_prim H
  end.

Tactic Notation "run_bind" hyp(H) "as" ident(a) ident(w) ident(H1) :=
  apply bindM_inr in H; destruct H as (a & w & H1 & H); try run_prim H1.

Lemma forM_nil {A B} (body : A -> M B) w ys w' :
  forM [] body w = inr (ys, w') -> ys = [] /\ w' = w.
Proof. intros [= <- <-]. done. Qed.

Lemma forM_cons {A B} (body : A -> M B) x xs w ys w' :
  forM (x :: xs) body w = inr (ys, w') ->
  exists y w1 ys', body x w = inr (y, w1) /\ forM xs body w1 = inr (ys', w') /\
                   ys = y :: ys'.
Proof.
  simpl. intros H. run_step H. run_step H. run_step H. eauto 10.
Qed.

(** A loop whose bodies move the world along a preorder [R], each
    establishing a fact [P] about what it returns that [R] preserves. *)
Lemma forM_spec {A B} (R : World -> World -> Prop) (P : B -> World -> Prop)
    (body : A -> M B) :
  (forall w, R w w) ->
  (forall w1 w2 w3, R w1 w2 -> R w2 w3 -> R w1 w3) ->
  (forall y w w', P y w -> R w w' -> P y w') ->
  forall xs w ys w',
    (forall x w1 y w2, x ∈ xs -> R w w1 -> body x w1 = inr (y, w2) -> R w1 w2 /\ P y w2) ->
    forM xs body w = inr (ys, w') ->
    R w w' /\ Forall (fun y => P y w') ys /\ length ys = length xs.
Proof.
  intros Hrefl Htrans Hstable xs.
  induction xs as [|x xs IH]; intros w ys w' Hbody Hrun.
  - apply forM_nil in Hrun as [-> ->]. auto.
  - apply forM_cons in Hrun as (y & w1 & ys' & Hx & Hxs & ->).
    destruct (Hbody x w y w1) as [HR HP]; [apply elem_of_cons; by left|done|done|].
    destruct (IH w1 ys' w') as (HR' & HPs & Hlen); [|done|].
    { intros x' w2 y' w3 Hin HR2 Hrun'.
      apply (Hbody x' w2 y' w3); [apply elem_of_cons; by right| |done]. by eapply Htrans. }
    split; [by eapply Htrans|]. split; [|simpl; by f_equal].
    constructor; [by eapply Hstable|done].
Qed.

(** ** The store and the projections it holds *)

Lemma obj_alloc_shape h q l :
  q_projection q = None -> q_bound q = None ->
  (q_projection (obj (h ++ [q]) l), q_bound (obj (h ++ [q]) l))
  = (q_projection (obj h l), q_bound (obj h l)).
Proof.
  intros Hq Hb. unfold obj.
  destruct (decide (l < length h)) as [Hlt|Hge].
  - by rewrite lookup_app_l.
  - rewrite (lookup_ge_None_2 h l) by lia. simpl.
    destruct (decide (l = length h)) as [->|Hne].
    + rewrite list_lookup_middle by done. simpl. by rewrite Hq, Hb.
    + rewrite lookup_ge_None_2; [done|]. rewrite length_app. simpl. lia.
Qed.

Lemma obj_alloc_new h q : obj (h ++ [q]) (length h) = q.
Proof. unfold obj. by rewrite list_lookup_middle. Qed.

Lemma obj_store_shape h l k v l' :
  (q_projection (obj (<[l := dict_setitem (obj h l) k v]> h) l'),
   q_bound (obj (<[l := dict_setitem (obj h l) k v]> h) l'))
  = (q_projection (obj h l'), q_bound (obj h l')).
Proof.
  unfold obj. destruct (decide (l = l')) as [<-|Hne].
  - destruct (decide (l < length h)) as [Hlt|Hge].
    + rewrite list_lookup_insert_eq by done. done.
    + rewrite list_insert_ge by lia. done.
  - by rewrite list_lookup_insert_ne.
Qed.

Lemma lowering_step_refl w : lowering_step w w.
Proof. split; [done|]. split; [done|by left]. Qed.

Lemma bare_at_step l w w' :
  bare_at w l -> (forall l, shape_at w' l = shape_at w l) ->
  length (heap w) <= length (heap w') -> bare_at w' l.
Proof. intros [Hs Hv] Hp Hlen. split; [by rewrite Hp|lia]. Qed.

Lemma lowering_step_trans w1 w2 w3 :
  lowering_step w1 w2 -> lowering_step w2 w3 -> lowering_step w1 w3.
Proof.
  intros (Hp12 & Hl12 & Hq12) (Hp23 & Hl23 & Hq23). split; [|split].
  - intros l. by rewrite Hp23.
  - lia.
  - destruct Hq23 as [Hsame|Hnone]; [|by right].
    destruct Hq12 as [Hsame'|Hnone]; [left; congruence|].
    right. unfold unprojected in *. rewrite Hsame.
    eapply Forall_impl; [exact Hnone|]. intros l Hl. simpl in Hl.
    by eapply bare_at_step.
Qed.

(** A step that keeps every projection and does not touch [self]. *)
Lemma lowering_step_heap w w' :
  self w' = self w -> (forall l, shape_at w' l = shape_at w l) ->
  length (heap w) <= length (heap w') -> lowering_step w w'.
Proof. intros Hself Hp Hlen. split; [done|]. split; [done|]. left. by rewrite Hself. Qed.

Lemma alloc_unprojected_step q w l w' :
  q_projection q = None -> q_bound q = None ->
  alloc q w = inr (l, w') ->
  lowering_step w w' /\ self w' = self w /\ bare_at w' l.
Proof.
  intros Hq Hb [= <- <-]. split; [|split; [done|]].
  - apply lowering_step_heap; [done| |simpl; rewrite length_app; lia].
    intros l. by apply obj_alloc_shape.
  - split; [|simpl; rewrite length_app; simpl; lia].
    unfold shape_at. simpl. rewrite obj_alloc_new. by rewrite Hq, Hb.
Qed.

Lemma query_get_inr w l w' :
  query_get w = inr (l, w') -> w' = w /\ head (queries (self w)) = Some l.
Proof.
  unfold query_get, bindM, gets.
  destruct (queries (self w)) as [|q qs]; simpl; [discriminate|].
  intros [= <- <-]. done.
Qed.

Lemma set_queries_inr v w u w' :
  set_queries v w = inr (u, w') ->
  queries (self w') = v /\ heap w' = heap w /\
  all_filters (self w') = all_filters (self w).
Proof. intros [= <- <-]. done. Qed.

Lemma Query_setitem_inr ds q k v q' :
  Query_setitem ds q k v = inr q' ->
  CheckFilter ds q k v = None /\ q' = dict_setitem q k v.
Proof.
  unfold Query_setitem. destruct (CheckFilter ds q k v); [discriminate|].
  by intros [= <-].
Qed.

Lemma store_setitem_step l k v w u w' :
  store l (dict_setitem (obj (heap w) l) k v) w = inr (u, w') ->
  lowering_step w w' /\ self w' = self w.
Proof.
  intros [= <- <-]. split; [|done].
  apply lowering_step_heap; [done| |simpl; by rewrite length_insert].
  intros l'. apply obj_store_shape.
Qed.

(** ** The projection guard *)

Lemma str_in_spec x xs : str_in x xs = true <-> x ∈ xs.
Proof.
  unfold str_in. rewrite existsb_exists. split.
  - intros (y & Hin & Heq). apply String.eqb_eq in Heq as ->.
    by apply list_elem_of_In.
  - intros Hin. exists x. split; [by apply list_elem_of_In|apply String.eqb_refl].
Qed.

(** The steps of the lowering that leave the flat filter list alone. *)
Definition filter_step (w w' : World) : Prop :=
  lowering_step w w' /\ all_filters (self w') = all_filters (self w).

Lemma filter_step_refl w : filter_step w w.
Proof. split; [apply lowering_step_refl|done]. Qed.

Lemma filter_step_trans w1 w2 w3 :
  filter_step w1 w2 -> filter_step w2 w3 -> filter_step w1 w3.
Proof.
  intros [H12 F12] [H23 F23]. split; [by eapply lowering_step_trans|congruence].
Qed.

Lemma bare_stable l w w' : bare_at w l -> filter_step w w' -> bare_at w' l.
Proof. intros Hl [(Hp & Hlen & _) _]. by eapply bare_at_step. Qed.

Lemma alloc_filter_step q w l w' :
  q_projection q = None /\ q_bound q = None ->
  alloc q w = inr (l, w') ->
  filter_step w w' /\ bare_at w' l.
Proof.
  intros Hq Hrun.
  destruct (alloc_unprojected_step q w l w' (proj1 Hq) (proj2 Hq) Hrun) as (Hs & Hself & Hl).
  split; [|done]. split; [done|]. by rewrite Hself.
Qed.

Lemma set_queries_unprojected v w u w' :
  Forall (bare_at w) v ->
  set_queries v w = inr (u, w') ->
  filter_step w w' /\ unprojected w' /\ queries (self w') = v.
Proof.
  intros Hv [= <- <-].
  assert (unprojected (with_self (fun c =>
            mkCursor (results c) v (start_cursor c) (returned_ids c) (queried_fields c)
                     (query_done c) (all_filters c) (last_query_model c)) w)) as Hun.
  { exact Hv. }
  split; [|done]. split; [|done]. split; [done|]. split; [done|by right].
Qed.

Lemma update_projection_state_spec field lookup_type w u w' :
  _update_projection_state field lookup_type w = inr (u, w') ->
  filter_step w w' /\
  length (queries (self w')) = length (queries (self w)) /\
  (forbids_projection field lookup_type = true ->
   forall q0 p, head (queries (self w)) = Some q0 -> proj_at w q0 = Some p ->
                f_column field ∈ p -> unprojected w').
Proof.
  unfold _update_projection_state. intros H.
  run_step H. apply query_get_inr in Hrun as [-> Hq0].
  run_step H.
  destruct (q_projection (obj (heap w) a)) as [projected|] eqn:Hproj.
  2:{ run_step H. split; [apply filter_step_refl|]. split; [done|].
      intros _ q0 p Hq0' Hp. unfold proj_at in Hp. congruence. }
  destruct (bool_decide (projected = []) || negb (str_in (f_column field) projected)) eqn:Hguard.
  { run_step H. split; [apply filter_step_refl|]. split; [done|].
    intros _ q0 p Hq0' Hp Hin. unfold proj_at in Hp.
    assert (p = projected) as -> by congruence.
    apply orb_true_iff in Hguard as [Hnil|Hnot].
    - apply bool_decide_eq_true in Hnil. subst. by apply elem_of_nil in Hin.
    - apply negb_true_iff in Hnot. apply str_in_spec in Hin. congruence. }
  fold (forbids_projection field lookup_type) in H.
  destruct (forbids_projection field lookup_type) eqn:Hforbid.
  2:{ run_step H. split; [apply filter_step_refl|]. split; [done|]. discriminate. }
  run_step H. run_step H.
  eapply (forM_spec filter_step (fun y w => bare_at w y)) in Hrun
    as (Hstep & Hnew & Hlen);
    [|apply filter_step_refl|apply filter_step_trans|apply bare_stable|].
  2:{ intros x w1 y w2 _ _ Hbody. run_step Hbody.
      eapply alloc_filter_step; [|exact Hbody]. done. }
  destruct (set_queries_unprojected _ _ _ _ Hnew H) as (Hstep' & Hun & Hqs).
  split; [by eapply filter_step_trans|]. split; [congruence|]. auto.
Qed.

(** ** Applying one filter *)

Lemma unprojected_step w w' : unprojected w -> lowering_step w w' -> unprojected w'.
Proof.
  intros Hun (Hp & Hlen & [Hsame|Hnone]); [|done].
  unfold unprojected in *. rewrite Hsame.
  eapply Forall_impl; [exact Hun|]. intros l Hl. simpl in Hl. by eapply bare_at_step.
Qed.

Lemma length_concat_uniform {A} (n : nat) (yss : list (list A)) :
  Forall (fun ys => length ys = n) yss -> length (concat yss) = length yss * n.
Proof.
  induction 1 as [|ys yss Hys _ IH]; simpl; [done|].
  rewrite length_app, IH, Hys. done.
Qed.

Section ApplyFilterBody.
Variable ds : Datastore.
Variable rec : Model -> Field -> string -> PyArg -> Value -> option loc -> M (option Triple).

(** A lookup with an operator: the filter is set on one object and
    returned; the recursive call is not made. *)
Lemma apply_filter_op model field lookup_type negated value query_to_update op w r w' :
  dict_get OPERATORS_MAP lookup_type = Some (Some op) ->
  _apply_filter_body ds rec model field lookup_type negated value query_to_update w
    = inr (r, w') ->
  filter_step w w' /\
  length (queries (self w')) = length (queries (self w)) /\
  r = Some (filter_column field, op, value) /\
  (forbids_projection field lookup_type = true ->
   forall q0 p, head (queries (self w)) = Some q0 -> proj_at w q0 = Some p ->
                f_column field ∈ p -> unprojected w').
Proof.
  intros Hop H. unfold _apply_filter_body in H.
  run_bind H as target wt Htarget.
  assert (wt = w) as ->.
  { destruct query_to_update as [l|].
    - run_bind Htarget as q wq Hq. destruct (Query_truth (obj (heap w) l)).
      + by run_step Htarget.
      + by apply query_get_inr in Htarget as [-> _].
    - by apply query_get_inr in Htarget as [-> _]. }
  clear Htarget. rewrite Hop in H.
  run_bind H as u1 w1 Hups.
  apply update_projection_state_spec in Hups as (Hstep & Hlen & Hforbid).
  run_bind H as q wq Hq. run_bind H as q' wq' Hset.
  apply Query_setitem_inr in Hpure as [_ ->].
  run_bind H as u2 w2 Hstore. run_step H.
  apply store_setitem_step in Hstore as [Hstore Hself].
  split; [|split; [by rewrite Hself|split; [done|]]].
  - destruct Hstep as [Hl Hf]. split; [by eapply lowering_step_trans|].
    by rewrite Hself.
  - intros Hfb q0 p Hq0 Hp Hin.
    eapply unprojected_step; [|exact Hstore]. eauto.
Qed.

Hypothesis rec_exact : forall model field negated v l w r w',
  rec model field "exact" negated v (Some l) w = inr (r, w') -> filter_step w w'.

(** An [in] lookup: every pending query is replaced by one fresh query
    per value, none of them with a projection. *)
Lemma apply_filter_in model field negated value w r w' :
  _apply_filter_body ds rec model field "in" negated value None w = inr (r, w') ->
  filter_step w w' /\ r = None /\ unprojected w' /\
  exists vs, py_iter value = inr vs /\
             length (queries (self w')) = length (queries (self w)) * length vs.
Proof.
  intros H. unfold _apply_filter_body in H.
  run_bind H as q0 wq Hq0. apply query_get_inr in Hq0 as [-> Hq0].
  change (dict_get OPERATORS_MAP "in") with (Some (@None string)) in H.
  cbv beta iota in H. change (String.eqb "in" "in") with true in H. cbv iota in H.
  run_bind H as u1 w1 Hups.
  apply update_projection_state_spec in Hups as (Hstep & Hlen & _).
  run_bind H as qs wqs Hqs. run_bind H as new_queries w2 Hloop.
  run_bind H as u2 w3 Hset. run_step H.
  set (P := fun (ys : list loc) (w : World) =>
              Forall (fun y => bare_at w y) ys /\
              exists vs, py_iter value = inr vs /\ length ys = length vs).
  eapply (forM_spec filter_step P) in Hloop as (Hloop & Hnew & Hlen');
    [|apply filter_step_refl|apply filter_step_trans| |].
  2:{ intros ys wa wb [Hys Hvs] Hab. split; [|done].
      eapply Forall_impl; [exact Hys|]. intros y Hy. simpl in Hy.
      eapply bare_stable; [exact Hy|exact Hab]. }
  2:{ intros query wa ys wb _ _ Hbody.
      run_bind Hbody as vs wvs Hvs.
      eapply (forM_spec filter_step (fun y w => bare_at w y)) in Hbody
        as (Hinner & Hys & Hlenys);
        [|apply filter_step_refl|apply filter_step_trans|apply bare_stable|].
      - split; [done|]. split; [done|]. eauto.
      - intros v wc y wd _ _ Hv.
        run_bind Hv as old wo Hold. run_bind Hv as nq wn Hal.
        apply alloc_filter_step in Hal as [Hal Hy]; [|done].
        run_bind Hv as r' wr Hrec. run_step Hv.
        apply rec_exact in Hrec.
        split; [by eapply filter_step_trans|].
        eapply bare_stable; [exact Hy|exact Hrec]. }
  assert (Forall (bare_at w2) (concat new_queries)) as Hall.
  { apply Forall_concat. eapply Forall_impl; [exact Hnew|]. by intros ys [Hys _]. }
  destruct (set_queries_unprojected _ _ _ _ Hall Hset) as (Hset' & Hun & Hqs).
  split; [eauto using filter_step_trans|]. split; [done|]. split; [done|].
  destruct (queries (self w1)) as [|qa qs] eqn:Hqs1.
  { destruct (queries (self w)); simpl in *; congruence. }
  destruct new_queries as [|ys yss]; [discriminate Hlen'|].
  pose proof Hnew as Hfirst.
  apply Forall_cons in Hfirst as [[_ (vs & Hvs & Hys)] _].
  exists vs. split; [done|].
  rewrite Hqs, <- Hlen, <- Hlen'.
  apply length_concat_uniform.
  eapply Forall_impl; [exact Hnew|]. intros zs [_ (vs' & Hvs' & Hzs)].
  simpl in Hzs. congruence.
Qed.
End ApplyFilterBody.

(** ** [_apply_filter] is the function the source defines *)

Lemma bindM_ext {A B} (m1 m2 : M A) (k1 k2 : A -> M B) w :
  m1 w = m2 w -> (forall a w1, k1 a w1 = k2 a w1) -> bindM m1 k1 w = bindM m2 k2 w.
Proof.
  intros Hm Hk. unfold bindM. rewrite Hm. destruct (m2 w) as [e|[a w1]]; [done|apply Hk].
Qed.

Lemma forM_ext {A B} (f g : A -> M B) xs :
  (forall x w, f x w = g x w) -> forall w, forM xs f w = forM xs g w.
Proof.
  intros Hfg. induction xs as [|x xs IH]; intros w; simpl; [done|].
  apply bindM_ext; [apply Hfg|]. intros y w1.
  apply bindM_ext; [apply IH|done].
Qed.

Lemma apply_filter_body_ext ds rec1 rec2 :
  (forall model field negated v l w,
     rec1 model field "exact" negated v (Some l) w
     = rec2 model field "exact" negated v (Some l) w) ->
  forall model field lookup_type negated value query_to_update w,
    _apply_filter_body ds rec1 model field lookup_type negated value query_to_update w
    = _apply_filter_body ds rec2 model field lookup_type negated value query_to_update w.
Proof.
  intros Hrec model field lookup_type negated value query_to_update w.
  unfold _apply_filter_body.
  apply bindM_ext; [done|]. intros target w1.
  destruct (dict_get OPERATORS_MAP lookup_type) as [[op|]|]; [done| |done].
  apply bindM_ext; [done|]. intros _ w2.
  destruct (String.eqb lookup_type "in"); [|done].
  apply bindM_ext; [done|]. intros qs w3.
  apply bindM_ext; [|done].
  apply forM_ext. intros query w4.
  apply bindM_ext; [done|]. intros vs w5.
  apply forM_ext. intros v w6.
  apply bindM_ext; [done|]. intros old w7.
  apply bindM_ext; [done|]. intros new_query w8.
  apply bindM_ext; [apply Hrec|done].
Qed.

(** The defining equation of the source function: the body, calling itself. *)
Lemma _apply_filter_unfold ds model field lookup_type negated value query_to_update w :
  _apply_filter ds model field lookup_type negated value query_to_update w
  = _apply_filter_body ds (_apply_filter ds) model field lookup_type negated value query_to_update w.
Proof.
  unfold _apply_filter at 1. apply apply_filter_body_ext.
  intros model' field' negated' v l w'. reflexivity.
Qed.

(** ** What one call of [_apply_filter] does *)

Lemma operators_in lookup_type :
  String.eqb lookup_type "in" = true -> dict_get OPERATORS_MAP lookup_type = Some None.
Proof. intros H. apply String.eqb_eq in H as ->. reflexivity. Qed.

Lemma apply_filter_spec ds model field lookup_type negated value w r w' :
  _apply_filter ds model field lookup_type negated value None w = inr (r, w') ->
  filter_step w w' /\
  r = match dict_get OPERATORS_MAP lookup_type with
      | Some (Some op) => Some (filter_column field, op, value)
      | _ => None
      end /\
  length (queries (self w'))
  = length (queries (self w))
    * (if String.eqb lookup_type "in"
       then match py_iter value with inr vs => length vs | inl _ => 1 end
       else 1) /\
  (forbids_projection field lookup_type = true ->
   forall q0 p, head (queries (self w)) = Some q0 -> proj_at w q0 = Some p ->
                f_column field ∈ p -> unprojected w').
Proof.
  intros H. unfold _apply_filter in H.
  destruct (dict_get OPERATORS_MAP lookup_type) as [[op|]|] eqn:Hop.
  - destruct (apply_filter_op _ _ _ _ _ _ _ _ _ _ _ _ Hop H) as (Hstep & Hlen & -> & Hforbid).
    split; [done|]. split; [done|]. split; [|done].
    destruct (String.eqb lookup_type "in") eqn:Hin; [|lia].
    apply operators_in in Hin. congruence.
  - destruct (String.eqb lookup_type "in") eqn:Hin.
    + apply String.eqb_eq in Hin as ->.
      apply apply_filter_in in H as (Hstep & -> & Hun & vs & Hvs & Hlen).
      * rewrite Hvs. auto.
      * intros model' field' negated' v l wa r' wb Hexact.
        by eapply (apply_filter_op _ _ _ _ "exact") in Hexact as [Hs _].
    + unfold _apply_filter_body at 1 in H.
      run_bind H as target wt Htarget. rewrite Hop in H.
      run_bind H as u1 w1 Hups. rewrite Hin in H. discriminate H.
  - unfold _apply_filter_body at 1 in H.
    run_bind H as target wt Htarget. rewrite Hop in H. discriminate H.
Qed.

(** ** Lowering a whole tree *)

Lemma Tree_nested_ind (P : Tree -> Prop) :
  (forall leaf, P (TLeaf leaf)) ->
  (forall connector negated children,
     Forall P children -> P (Node connector negated children)) ->
  forall t, P t.
Proof.
  intros Hleaf Hnode. fix IH 1. intros [leaf|connector negated children].
  - apply Hleaf.
  - apply Hnode. induction children as [|child rest IHrest]; constructor.
    + apply IH.
    + exact IHrest.
Qed.

Lemma shape_proj w w' l : shape_at w' l = shape_at w l -> proj_at w' l = proj_at w l.
Proof. unfold shape_at, proj_at. congruence. Qed.

Lemma bare_proj w l : bare_at w l -> proj_at w l = None.
Proof. unfold bare_at, shape_at, bare, proj_at. intros [? _]. congruence. Qed.

Lemma tail_unprojected_step w w' :
  tail_unprojected w -> lowering_step w w' -> tail_unprojected w'.
Proof.
  intros Ht (Hp & Hlen & [Hsame|Hnone]).
  - unfold tail_unprojected in *. rewrite Hsame.
    eapply Forall_impl; [exact Ht|]. intros l Hl. simpl in Hl. by eapply bare_at_step.
  - unfold tail_unprojected, unprojected in *.
    destruct (queries (self w')) as [|q qs]; [constructor|].
    simpl. by apply Forall_cons in Hnone as [_ ?].
Qed.

Lemma avoids_step c w w' : avoids c w -> lowering_step w w' -> avoids c w'.
Proof.
  intros Hc (Hp & Hlen & [Hsame|Hnone]) l p Hl Hproj.
  - rewrite Hsame in Hl. rewrite (shape_proj _ _ _ (Hp l)) in Hproj. by eapply Hc.
  - unfold unprojected in Hnone. rewrite Forall_forall in Hnone.
    rewrite (bare_proj _ _ (Hnone l Hl)) in Hproj. discriminate.
Qed.

Lemma unprojected_avoids c w : unprojected w -> avoids c w.
Proof.
  intros Hun l p Hl Hproj. unfold unprojected in Hun. rewrite Forall_forall in Hun.
  rewrite (bare_proj _ _ (Hun l Hl)) in Hproj. discriminate.
Qed.

Lemma lowered_nil model w : lowered model [] w w.
Proof.
  split; [apply lowering_step_refl|]. split; [by rewrite app_nil_r|].
  split; [simpl; lia|]. intros _ leaf field lookup_type value Hin.
  by apply elem_of_nil in Hin.
Qed.

Lemma foldr_mul_app (xs ys : list nat) :
  foldr Nat.mul 1 (xs ++ ys) = foldr Nat.mul 1 xs * foldr Nat.mul 1 ys.
Proof. induction xs as [|x xs IH]; simpl; [lia|]. rewrite IH. lia. Qed.

Lemma lowered_app model ls1 ls2 w w1 w2 :
  lowered model ls1 w w1 -> lowered model ls2 w1 w2 -> lowered model (ls1 ++ ls2) w w2.
Proof.
  intros (Hs1 & Hf1 & Hn1 & Hc1) (Hs2 & Hf2 & Hn2 & Hc2).
  split; [by eapply lowering_step_trans|]. split; [|split].
  - rewrite Hf2, Hf1, flat_map_app. by rewrite app_assoc.
  - rewrite Hn2, Hn1, map_app, foldr_mul_app. lia.
  - intros Ht leaf field lookup_type value Hin Hparse Hforbid.
    apply elem_of_app in Hin as [Hin|Hin].
    + eapply avoids_step; [|exact Hs2]. eauto.
    + eapply Hc2; eauto using tail_unprojected_step.
Qed.

Lemma truth_inr a w b w' : truth a w = inr (b, w') -> w' = w.
Proof. destruct a; simpl; intros H; by run_step H. Qed.

Lemma py_not_inr a w b w' : py_not a w = inr (b, w') -> w' = w.
Proof.
  unfold py_not. intros H. run_bind H as t wt Ht. apply truth_inr in Ht as ->.
  by run_step H.
Qed.

Lemma append_filter_inr target x w u w' :
  append_filter target x w = inr (u, w') ->
  lowering_step w w' /\ all_filters (self w') = all_filters (self w) ++ [x] /\
  queries (self w') = queries (self w).
Proof.
  destruct target; simpl; intros H; [discriminate H|].
  run_bind H as fs wf Hfs. injection H as <- <-.
  split; [|done]. split; [done|]. split; [done|by left].
Qed.

(** One leaf of the traversal. *)
Lemma lowered_leaf ds model leaf target negated w u w' :
  (let! (field, lookup_type, value) := lift (_parse_child model leaf) in
   let! applied_filter := _apply_filter ds model field lookup_type negated value None in
   match applied_filter with
   | Some x => append_filter target x
   | None => retM tt
   end) w = inr (u, w') ->
  lowered model [leaf] w w'.
Proof.
  intros H. run_bind H as parsed wp Hparse. destruct parsed as [[field lookup_type] value].
  run_bind H as applied w1 Happly.
  apply apply_filter_spec in Happly as ([Hstep Hfilters] & -> & Hlen & Hforbid).
  assert (lowering_step w1 w' /\
          all_filters (self w') = all_filters (self w1) ++ leaf_filter model leaf /\
          queries (self w') = queries (self w1)) as (Hstep' & Hfilters' & Hqs).
  { unfold leaf_filter. rewrite Hpure.
    destruct (dict_get OPERATORS_MAP lookup_type) as [[op|]|].
    - by apply append_filter_inr in H.
    - run_step H. rewrite app_nil_r. auto using lowering_step_refl.
    - run_step H. rewrite app_nil_r. auto using lowering_step_refl. }
  split; [by eapply lowering_step_trans|]. split; [|split].
  - simpl. rewrite app_nil_r. congruence.
  - rewrite Hqs, Hlen. unfold leaf_width. simpl. rewrite Hpure.
    destruct (String.eqb lookup_type "in"); [destruct (py_iter value)|]; lia.
  - intros Ht leaf' field' lookup_type' value' Hin Hparse' Hfb.
    apply list_elem_of_singleton in Hin as ->.
    rewrite Hpure in Hparse'. injection Hparse' as <- <- <-.
    eapply avoids_step; [|exact Hstep'].
    destruct (queries (self w)) as [|q0 rest] eqn:Hqueries.
    { intros l p Hl. simpl in Hlen. apply nil_length_inv in Hlen.
      rewrite Hlen in Hl. by apply elem_of_nil in Hl. }
    destruct (proj_at w q0) as [p0|] eqn:Hp0.
    + destruct (decide (f_column field ∈ p0)) as [Hin|Hnotin].
      * apply unprojected_avoids. eapply Hforbid; eauto.
      * eapply avoids_step; [|exact Hstep].
        intros l p Hl Hp. rewrite Hqueries in Hl. apply elem_of_cons in Hl as [->|Hl].
        -- congruence.
        -- unfold tail_unprojected in Ht. rewrite Hqueries in Ht. simpl in Ht.
           rewrite Forall_forall in Ht. rewrite (bare_proj _ _ (Ht l Hl)) in Hp. discriminate.
    + eapply avoids_step; [|exact Hstep].
      intros l p Hl Hp. rewrite Hqueries in Hl. apply elem_of_cons in Hl as [->|Hl].
      * congruence.
      * unfold tail_unprojected in Ht. rewrite Hqueries in Ht. simpl in Ht.
        rewrite Forall_forall in Ht. rewrite (bare_proj _ _ (Ht l Hl)) in Hp. discriminate.
Qed.

(** The traversal lowers the leaves of the tree in order, whatever the two
    swapped arguments hold. *)
Lemma apply_filters_lowered ds model t :
  forall target negated w u w',
    _apply_filters ds model t target negated w = inr (u, w') ->
    lowered model (leaves t) w w'.
Proof.
  induction t as [leaf|connector where_negated children IH] using Tree_nested_ind;
    intros target negated w u w' H.
  - discriminate H.
  - simpl in H.
    run_bind H as negated' w1 Hneg.
    assert (w1 = w) as ->.
    { destruct where_negated; [by apply py_not_inr in Hneg|by run_step Hneg]. }
    clear Hneg.
    run_bind H as t w2 Ht. apply truth_inr in Ht as ->.
    destruct (negb t && negb match connector with AND => true | OR => false end);
      [discriminate H|].
    clear t. revert w H.
    induction IH as [|child rest Hchild _ IHrest]; intros w H.
    + run_step H. apply lowered_nil.
    + run_bind H as u1 w1 Hhead.
      change (leaves (Node connector where_negated (child :: rest)))
        with (leaves child ++ leaves (Node connector where_negated rest)).
      eapply lowered_app; [|by apply IHrest].
      destruct child as [leaf|c n ch].
      * simpl. by eapply lowered_leaf.
      * by eapply Hchild.
Qed.

(** ** Lowering through [execute_appengine_query] *)

Lemma plain_at_step l w w' : plain_at w l -> lowering_step w w' -> plain_at w' l.
Proof.
  intros [Hb Hv] (Hp & Hlen & _). split; [|lia].
  specialize (Hp l). unfold shape_at in Hp. congruence.
Qed.

Lemma bare_plain w l : bare_at w l -> plain_at w l.
Proof. intros [Hs Hv]. split; [|done]. unfold shape_at, bare in Hs. congruence. Qed.

Lemma plain_queries_step w w' :
  Forall (plain_at w) (queries (self w)) -> lowering_step w w' ->
  Forall (plain_at w') (queries (self w')).
Proof.
  intros Hpl Hstep. pose proof Hstep as (Hp & Hlen & [Hsame|Hnone]).
  - rewrite Hsame. eapply Forall_impl; [exact Hpl|].
    intros l Hl. by eapply plain_at_step.
  - eapply Forall_impl; [exact Hnone|]. intros l Hl. by apply bare_plain.
Qed.

Section ExecuteSelect.
Variable py_str : Value -> string.
Variable ds : Datastore.

(** The select branch: a fresh first query, the traversal, the envelope. *)
Lemma execute_select_inr model select where_ w u w' :
  execute_appengine_query py_str ds model (SelectQuery select where_) w = inr (u, w') ->
  exists w0 w1,
    queries (self w0) = length (heap w) :: tail (queries (self w)) /\
    heap w0 = heap w ++ [Query_new (Some (db_table model)) (initial_projection model select)] /\
    all_filters (self w0) = [] /\
    _apply_filters ds model where_ AFilters (ABool false) w0 = inr (tt, w1) /\
    all_filters (self w') = all_filters (self w1) /\
    queried_fields (self w') = queried_fields (self w1) /\
    match queries (self w1) with
    | _ :: _ :: _ =>
      queries (self w') = [length (heap w1)] /\
      heap w' = heap w1 ++ [envelope (queries (self w1))] /\
      CheckMultiQuery ds (pending w1) = None
    | _ => queries (self w') = queries (self w1) /\ heap w' = heap w1
    end.
Proof.
  intros H. unfold execute_appengine_query in H.
  run_bind H as u1 w1 H1. run_write H1.
  run_bind H as q w2 Halloc. run_write Halloc.
  run_bind H as u2 w3 Hset.
  run_bind H as u3 w4 Hfilters. run_write Hfilters.
  run_bind H as u4 w5 Hlower.
  run_bind H as qs wqs Hqs.
  run_bind H as u5 w6 Hwrap. run_bind H as u6 w7 Hmodel. run_write Hmodel.
  run_write H.
  destruct u4. eexists _, w5. split; [|split; [|split; [|split; [exact Hlower|]]]].
  - unfold query_set in Hset. run_bind Hset as qs wq Hqs.
    simpl in Hset. destruct (queries (self w)); by injection Hset as <- <-.
  - unfold query_set in Hset. run_bind Hset as qs wq Hqs.
    simpl in Hset. unfold initial_projection.
    destruct (queries (self w)); injection Hset as <- <-; simpl;
      by destruct (bool_decide (select = [])).
  - done.
  - destruct (queries (self w5)) as [|qa [|qb qs]] eqn:Hqueries.
    + by run_step Hwrap.
    + by run_step Hwrap.
    + run_bind Hwrap as h wh Hh. run_bind Hwrap as multi wmq Hmulti.
      run_bind Hwrap as m wm Hm. run_write Hm. run_write Hwrap.
      unfold MultiQuery_new in Hpure. unfold pending. rewrite ?Hqueries.
      destruct (CheckMultiQuery ds _) eqn:Hcheck; [discriminate Hpure|].
      by injection Hpure as <-.
Qed.
End ExecuteSelect.

Lemma obj_alloc_old h q l : l < length h -> obj (h ++ [q]) l = obj h l.
Proof. intros Hl. unfold obj. by rewrite lookup_app_l. Qed.

Lemma native_queries_plain w :
  Forall (plain_at w) (queries (self w)) -> native_queries w = pending w.
Proof.
  unfold native_queries, pending. induction 1 as [|l ls [Hb _] _ IH]; simpl; [done|].
  rewrite Hb. simpl. by f_equal.
Qed.

Section Lowering.
Variable py_str : Value -> string.
Variable ds : Datastore.

(** From a cursor holding at most one query, the executor is handed
    exactly the queries the traversal leaves pending. *)
Lemma execute_select_native model select where_ w u w' :
  length (queries (self w)) <= 1 ->
  execute_appengine_query py_str ds model (SelectQuery select where_) w = inr (u, w') ->
  exists w0 w1,
    queries (self w0) = [length (heap w)] /\
    lowered model (leaves where_) w0 w1 /\
    native_queries w' = pending w1 /\
    (2 <= length (queries (self w1)) ->
     exists m, queries (self w') = [m] /\ is_MultiQuery (obj (heap w') m) = true) /\
    (length (queries (self w1)) < 2 ->
     pending w' = pending w1 /\ Forall (fun q => is_MultiQuery q = false) (pending w')).
Proof.
  intros Hone H.
  apply execute_select_inr in H
    as (w0 & w1 & Hq0 & Hh0 & _ & Hrun & _ & _ & Hfinal).
  assert (queries (self w0) = [length (heap w)]) as Hq0'.
  { rewrite Hq0. destruct (queries (self w)) as [|a [|b l]]; simpl in *; [done..|lia]. }
  apply apply_filters_lowered in Hrun as Hlow.
  assert (Forall (plain_at w1) (queries (self w1))) as Hplain.
  { eapply plain_queries_step; [|apply Hlow]. rewrite Hq0'. constructor; [|constructor].
    split; [|rewrite Hh0, length_app; simpl; lia].
    by rewrite Hh0, obj_alloc_new. }
  exists w0, w1. split; [done|]. split; [done|].
  destruct (queries (self w1)) as [|qa [|qb qs]] eqn:Hqs.
  - destruct Hfinal as [Hq Hh].
    assert (pending w' = pending w1) as Hp by (unfold pending; by rewrite Hq, Hh, Hqs).
    assert (Forall (plain_at w') (queries (self w'))) as Hplain'.
    { rewrite Hq. constructor. }
    split; [by rewrite native_queries_plain|]. split; [simpl; lia|].
    intros _. split; [done|]. rewrite Hp. unfold pending. rewrite Hqs. constructor.
  - destruct Hfinal as [Hq Hh].
    assert (pending w' = pending w1) as Hp by (unfold pending; by rewrite Hq, Hh, Hqs).
    split; [|split; [simpl; lia|]].
    + rewrite native_queries_plain; [done|]. rewrite Hq.
      eapply Forall_impl; [exact Hplain|]. intros l Hl. simpl in Hl.
      unfold plain_at. by rewrite Hh.
    + intros _. split; [done|]. rewrite Hp. unfold pending. rewrite Hqs.
      apply Forall_cons in Hplain as [[Hb _] _]. constructor; [|constructor].
      unfold is_MultiQuery. by rewrite Hb.
  - destruct Hfinal as (Hq & Hh & _). split; [|split].
    + assert (map (obj (heap w')) (qa :: qb :: qs)
              = map (obj (heap w1)) (qa :: qb :: qs)) as Hmap.
      { rewrite Hh. apply map_ext_in. intros l Hl. apply obj_alloc_old.
        rewrite Forall_forall in Hplain. apply Hplain, list_elem_of_In. done. }
      assert (obj (heap w') (length (heap w1)) = envelope (qa :: qb :: qs)) as Hm.
      { rewrite Hh. apply obj_alloc_new. }
      unfold native_queries, pending. rewrite Hq. cbn [map flat_map].
      rewrite Hm. cbn [q_bound envelope]. rewrite app_nil_r, Hqs. exact Hmap.
    + intros _. eexists. split; [exact Hq|]. by rewrite Hh, obj_alloc_new.
    + simpl. lia.
Qed.
End Lowering.

(** * The claims *)

(** ** C4: the cache key *)

Lemma NoDup_fields_determine {V} (l : list (string * V)) :
  NoDup (map fst l) -> forall x y, x ∈ l -> y ∈ l -> x.1 = y.1 -> x = y.
Proof.
  induction l as [|a l IH]; intros Hnd x y Hx Hy Heq.
  - by apply elem_of_nil in Hx.
  - apply NoDup_cons in Hnd as [Ha Hnd].
    apply elem_of_cons in Hx as [->|Hx]; apply elem_of_cons in Hy as [->|Hy].
    + done.
    + exfalso. apply Ha. rewrite Heq. apply list_elem_of_fmap. eauto.
    + exfalso. apply Ha. rewrite <- Heq. apply list_elem_of_fmap. eauto.
    + by apply IH.
Qed.

Lemma append_assoc (a b c : string) : (a +:+ b) +:+ c = a +:+ (b +:+ c).
Proof.
  induction a as [|x a IH]; [done|].
  change (String x ((a +:+ b) +:+ c) = String x (a +:+ (b +:+ c))). by rewrite IH.
Qed.

(** C4, as stated, fails: with a field name that occurs twice the stable sort
    keeps the input order of the two pairs, and the key changes with it. *)
Lemma generate_unique_key_repeated_field :
  [("a", VStr "1"); ("a", VStr "2")] ≡ₚ [("a", VStr "2"); ("a", VStr "1")] /\
  generate_unique_key str_of_text Post [("a", VStr "1"); ("a", VStr "2")]
  <> generate_unique_key str_of_text Post [("a", VStr "2"); ("a", VStr "1")].
Proof. split; [apply perm_swap|]. vm_compute. discriminate. Qed.

(** C4 (amended): for pairs with pairwise distinct field names the key does
    not depend on the order of the pairs, and it reads
    [<app_label>.<kind>|<field>:<value>|...] over the pairs sorted by field
    name. *)
Theorem generate_unique_key_permutation
    (py_str : Value -> string) (model : Model) (pairs pairs' : list (string * Value)) :
  NoDup (map fst pairs) -> pairs ≡ₚ pairs' ->
  generate_unique_key py_str model pairs = generate_unique_key py_str model pairs' /\
  exists sorted,
    sorted ≡ₚ pairs /\ StronglySorted field_le sorted /\
    generate_unique_key py_str model pairs
    = app_label model +:+ "." +:+ db_table model +:+ "|"
      +:+ String.concat "|" (map (fun fv => fv.1 +:+ ":" +:+ py_str fv.2) sorted).
Proof.
  intros Hnd Hperm. split.
  - unfold generate_unique_key.
    by rewrite (sorted_by_field_permutation pairs pairs' (NoDup_fields_determine _ Hnd) Hperm).
  - exists (sorted_by_field pairs).
    split; [apply sorted_by_field_perm|]. split; [apply sorted_by_field_sorted|].
    unfold generate_unique_key, key_part. cbv zeta. by rewrite !append_assoc.
Qed.

Lemma generate_unique_key_permutation_witness :
  generate_unique_key str_of_text Post [("slug", VStr "hello"); ("id", VStr "1")]
  = generate_unique_key str_of_text Post [("id", VStr "1"); ("slug", VStr "hello")].
Proof.
  apply (generate_unique_key_permutation str_of_text Post
           [("slug", VStr "hello"); ("id", VStr "1")]
           [("id", VStr "1"); ("slug", VStr "hello")]).
  - by apply (bool_decide_unpack _).
  - apply perm_swap.
Defined.

(** The scenario of the spec: [slug = "hello"] is probed under this key. *)
Example generate_unique_key_scenario :
  generate_unique_key str_of_text Post [("slug", VStr "hello")] = "blog.post|slug:hello".
Proof. reflexivity. Qed.

(** ** C8: enumerating the unique constraints *)

(** C8, as stated, fails: a field that is unique and also declared alone in
    [unique_together] is listed twice. *)
Lemma get_uniques_from_model_repeats :
  get_uniques_from_model Tagged = inr [["slug"]; ["id"]; ["slug"]] /\
  ~ NoDup [["slug"]; ["id"]; ["slug"]].
Proof.
  split; [reflexivity|]. intros Hnd.
  apply NoDup_cons in Hnd as [Hin _]. apply Hin. set_solver.
Qed.


Lemma mapM_length {A B} (f : A -> Res B) xs ys :
  mapM f xs = inr ys -> length ys = length xs.
Proof.
  revert ys. induction xs as [|x xs IH]; intros ys; simpl.
  - by intros [= <-].
  - intros H. apply bind_inr in H as (y & _ & H).
    apply bind_inr in H as (ys' & Hys & H). injection H as <-.
    simpl. f_equal. by apply IH.
Qed.

(** C8 (amended): the enumeration lists one column tuple per
    [unique_together] declaration, in order, followed by one single-column
    tuple per unique field, in field order; nothing is removed. *)
Theorem get_uniques_from_model_lists_every_declaration (model : Model) (uniques : list (list string)) :
  get_uniques_from_model model = inr uniques ->
  exists composite,
    uniques = composite ++ map (fun f => [f_column f]) (filter (fun f => f_unique f) (fields model)) /\
    Forall2 (fun names columns =>
               Forall2 (fun name column =>
                          exists f, get_field model name = inr f /\ column = f_column f)
                       names columns)
            (unique_together model) composite.
Proof.
  unfold get_uniques_from_model. intros H.
  apply bind_inr in H as (composite & Hcomp & H). injection H as <-.
  exists composite. split; [done|].
  revert composite Hcomp.
  induction (unique_together model) as [|names rest IH]; intros composite; simpl.
  - intros [= <-]. constructor.
  - intros H. apply bind_inr in H as (columns & Hcols & H).
    apply bind_inr in H as (composite' & Hrest & H). injection H as <-.
    constructor; [|by apply IH].
    clear -Hcols. revert columns Hcols.
    induction names as [|name names IHn]; intros columns; simpl.
    + intros [= <-]. constructor.
    + intros H. apply bind_inr in H as (column & Hcol & H).
      apply bind_inr in H as (columns' & Hcols' & H). injection H as <-.
      constructor; [|by apply IHn].
      apply bind_inr in Hcol as (f & Hf & Hcol). injection Hcol as <-. eauto.
Qed.

Lemma get_uniques_from_model_lists_every_declaration_witness :
  exists composite,
    [["slug"]; ["id"]; ["slug"]]
    = composite ++ map (fun f => [f_column f]) (filter (fun f => f_unique f) (fields Tagged)) /\
    Forall2 (fun names columns =>
               Forall2 (fun name column =>
                          exists f, get_field Tagged name = inr f /\ column = f_column f)
                       names columns)
            (unique_together Tagged) composite.
Proof.
  apply (get_uniques_from_model_lists_every_declaration Tagged). reflexivity.
Defined.

(** ** C7: SQL strings *)

(** C7, as stated, fails: the exception is a [RuntimeError], which is not a
    [DatabaseError]. *)
Lemma execute_error_is_not_DatabaseError :
  exists e, execute "SELECT 1" [] World_init = inl e /\ is_DatabaseError e = false.
Proof. eexists. split; reflexivity. Qed.

(** C7 (amended): [execute] fails on every SQL string, with [RuntimeError]. *)
Theorem execute_raises_RuntimeError (sql : string) (params : list Value) (w : World) :
  exists msg, execute sql params w = inl (RuntimeError msg).
Proof. eexists. reflexivity. Qed.
(** ** C1: the flat filter list *)

(** C1, as stated, fails: [title = "x" AND slug IN ("a", "b")] is accepted,
    both native queries carry an equality filter on [slug], and the flat
    filter list holds the filter on [title] only. *)
Lemma flat_filter_list_misses_in_filters :
  let w := after_select Article [] title_and_slugs in
  execute_appengine_query str_of_text two_posts Article (SelectQuery [] title_and_slugs)
                          World_init
  = inr (tt, w) /\
  all_filters (self w) = [("title", "=", VStr "x")] /\
  map (fun q => map_to_list (q_filters q)) (native_queries w)
  = [[("slug =", VStr "a"); ("title =", VStr "x")];
     [("slug =", VStr "b"); ("title =", VStr "x")]] /\
  ~ records_every_emitted_filter w.
Proof.
  intros w. split; [by vm_compute|]. split; [by vm_compute|]. split; [by vm_compute|].
  intros Hrec.
  assert (exists q, native_queries w !! 0 = Some q /\
                    q_filters q !! "slug =" = Some (VStr "a")) as (q & Hq & Hslug).
  { eexists. split; by vm_compute. }
  specialize (Hrec q "slug" "=" (VStr "a")).
  assert (("slug", "=", VStr "a") ∈ all_filters (self w)) as Hin.
  { apply Hrec; [|exact Hslug]. by eapply list_elem_of_lookup_2. }
  vm_compute in Hin. apply list_elem_of_singleton in Hin. discriminate Hin.
Qed.

(** C1 (amended): after an accepted lowering the flat filter list holds, in
    traversal order, the triple of every leaf whose lookup has an operator;
    the equality filters an [in] leaf emits are not recorded. *)
Theorem flat_filter_list_records_operator_filters
    (py_str : Value -> string) (ds : Datastore) (model : Model)
    (select : list string) (where_ : Tree) (w : World) (u : unit) (w' : World) :
  execute_appengine_query py_str ds model (SelectQuery select where_) w = inr (u, w') ->
  all_filters (self w') = flat_map (leaf_filter model) (leaves where_) /\
  (forall leaf field value,
     _parse_child model leaf = inr (field, "in", value) -> leaf_filter model leaf = []).
Proof.
  intros H. split.
  - apply execute_select_inr in H as (w0 & w1 & _ & _ & Hnil & Hrun & Hsame & _).
    apply apply_filters_lowered in Hrun as (_ & Hfilters & _).
    by rewrite Hsame, Hfilters, Hnil.
  - intros leaf field value Hparse. unfold leaf_filter. by rewrite Hparse.
Qed.

Lemma flat_filter_list_records_operator_filters_witness :
  all_filters (self (after_select Article [] title_and_slugs))
  = flat_map (leaf_filter Article) (leaves title_and_slugs).
Proof.
  apply (flat_filter_list_records_operator_filters str_of_text two_posts Article []
           title_and_slugs World_init tt (after_select Article [] title_and_slugs)).
  by vm_compute.
Defined.

(** A leaf with an operator in a node that is a child of the root does not
    get that far: that call receives a bool where it expects the list, and
    appending fails.  One level further down the list is back in its place. *)
Example nested_leaf_raises_AttributeError :
  execute_appengine_query str_of_text two_posts Doc
    (SelectQuery [] (Node AND false [Node AND false [leaf_on f_title "gt" (VList [VStr "x"])]]))
    World_init
  = inl AttributeError.
Proof. by vm_compute. Qed.

Example doubly_nested_leaf_is_recorded :
  all_filters (self (after_select Doc []
     (Node AND false [Node AND false [Node AND false
        [leaf_on f_title "gt" (VList [VStr "x"])]]])))
  = [("title", ">", VStr "x")].
Proof. by vm_compute. Qed.

(** ** C2: IN expansion *)

Section FanOut.
Variable py_str : Value -> string.
Variable ds : Datastore.

(** The number of native queries is the product of the widths of the [in]
    leaves; two or more are wrapped in one [MultiQuery], fewer are handed
    over as they are. *)
Lemma lowering_fan_out model select where_ w u w' :
  length (queries (self w)) <= 1 ->
  execute_appengine_query py_str ds model (SelectQuery select where_) w = inr (u, w') ->
  length (native_queries w') = fan_out model where_ /\
  (2 <= fan_out model where_ ->
   exists m, queries (self w') = [m] /\ is_MultiQuery (obj (heap w') m) = true) /\
  (fan_out model where_ < 2 ->
   length (pending w') = fan_out model where_ /\
   Forall (fun q => is_MultiQuery q = false) (pending w')).
Proof.
  intros Hone H.
  apply execute_select_native in H as (w0 & w1 & Hq0 & Hlow & Hnative & Hwrap & Hpass);
    [|done].
  destruct Hlow as (_ & _ & Hlen & _).
  rewrite Hq0 in Hlen. simpl in Hlen. rewrite Nat.add_0_r in Hlen.
  fold (fan_out model where_) in Hlen.
  split; [|split].
  - rewrite Hnative. unfold pending. by rewrite length_map.
  - intros Htwo. apply Hwrap. lia.
  - intros Hlt. destruct Hpass as [Hp Hplain]; [lia|]. split; [|done].
    rewrite Hp. unfold pending. by rewrite length_map.
Qed.
End FanOut.

(** C2: where the code departs from the claim.  [slug IN ("a", "b", "c")] on
    a new query gives three native queries in one envelope, but the first of
    them has no filter: the copy of the still empty query is a false value, so
    [query_to_update or self.query] picks the pending query, and the filter
    for ["a"] is set on that one, which is then dropped. *)
Theorem in_expansion_on_an_unfiltered_query :
  let w := after_select Post [] slug_in_a_b_c in
  execute_appengine_query str_of_text two_posts Post (SelectQuery [] slug_in_a_b_c) World_init
  = inr (tt, w) /\
  map is_MultiQuery (pending w) = [true] /\
  map (fun q => map_to_list (q_filters q)) (native_queries w)
  = [[]; [("slug =", VStr "b")]; [("slug =", VStr "c")]] /\
  map_to_list (q_filters (obj (heap w) 0)) = [("slug =", VStr "a")].
Proof.
  intros w. split; [by vm_compute|]. split; [by vm_compute|].
  split; by vm_compute.
Qed.

(** On a query that already has a filter every copy gets its own value. *)
Example in_expansion_on_a_filtered_query :
  map (fun q => map_to_list (q_filters q))
      (native_queries (after_select Article [] title_and_slugs))
  = [[("slug =", VStr "a"); ("title =", VStr "x")];
     [("slug =", VStr "b"); ("title =", VStr "x")]].
Proof. by vm_compute. Qed.

(** ** C5: lookups without an operator *)

Lemma apply_filter_without_operator ds model field lookup_type negated value query_to_update w :
  dict_get OPERATORS_MAP lookup_type = Some None ->
  String.eqb lookup_type "in" = false ->
  forall r w', _apply_filter ds model field lookup_type negated value query_to_update w
               <> inr (r, w').
Proof.
  intros Hop Hin r w' H. unfold _apply_filter, _apply_filter_body at 1 in H.
  run_bind H as target wt Htarget. rewrite Hop in H.
  run_bind H as u1 w1 Hups. rewrite Hin in H. discriminate H.
Qed.

(** C5: what the code does instead.  For [isnull], [startswith], [range] and
    [year] no call of [_apply_filter] returns; on a query that was just
    created the exception is the failed [assert(op is not None)]. *)
Theorem lookups_without_operator_raise
    (ds : Datastore) (model : Model) (field : Field) (negated : PyArg) (value : Value)
    (query_to_update : option loc) (w : World) :
  Forall (fun lookup_type =>
            (forall r w',
               _apply_filter ds model field lookup_type negated value query_to_update w
               <> inr (r, w')) /\
            _apply_filter two_posts Doc f_title lookup_type (ABool false) (VStr "x") None
                          (after_select Doc [] (Node AND false []))
            = inl AssertionError)
         ["isnull"; "startswith"; "range"; "year"].
Proof.
  repeat constructor; try (by apply apply_filter_without_operator); by vm_compute.
Qed.
(** ** C3: the projection guard *)

(** C3: where the code departs from the claim.  [Post] is selected on [id]
    and [slug] and filtered by [id = key].  The filter is set on the column
    [__key__], which the projection lists, and the lookup is [exact]; but the
    guard looks for the field's own column [id], which the select has renamed
    to [__key__] in the list it handed over as the projection.  It does not
    fire, and the native query keeps [__key__] in its projection beside the
    equality filter on it. *)
Theorem projection_survives_a_primary_key_filter :
  let where_ := id_is (VKey (VInt 5)) in
  let w := after_select Post ["id"; "slug"] where_ in
  execute_appengine_query str_of_text two_posts Post (SelectQuery ["id"; "slug"] where_)
                          World_init
  = inr (tt, w) /\
  filter_column f_id = "__key__" /\ forbids_projection f_id "exact" = true /\
  map (fun q => (q_projection q, map_to_list (q_filters q))) (native_queries w)
  = [(Some ["__key__"; "slug"], [("__key__ =", VKey (VInt 5))])].
Proof.
  intros where_ w. split; [by vm_compute|]. split; [done|]. split; by vm_compute.
Qed.

(** With the primary key under a plain column name the guard does fire: the
    third scenario of the spec, [Doc] selected on [title, body] and filtered
    by [title = "x"], ends without projection. *)
Example projection_invalidated :
  map (fun q => q_projection q)
      (native_queries (after_select Doc ["title"; "body"]
                         (Node AND false [leaf_on f_title "exact" (VList [VStr "x"])])))
  = [None].
Proof. by vm_compute. Qed.

(** ** C6, C9, C10: [fetchmany] *)

Section Fetch.
Variable py_str : Value -> string.
Variable ds : Datastore.

Lemma probe_cache_same_cursor model filters w r w' :
  probe_cache py_str model filters w = inr (r, w') -> same_cursor w w'.
Proof.
  unfold probe_cache. intros H.
  run_bind H as uniques wu Hu. run_bind H as found wf Hfound. run_step H.
  eapply (forM_spec same_cursor (fun _ _ => True)) in Hfound as (Hsame & _);
    [done|done| |done|].
  - intros w1 w2 w3 [H1 H2] [H3 H4]. split; congruence.
  - intros fields w1 y w2 _ _ Hbody. split; [|done].
    destruct (mapM _ fields) as [e|final_key].
    + by run_step Hbody.
    + run_bind Hbody as e we He. run_step Hbody.
      unfold get_entity_from_cache in He.
      run_bind He as u1 wl Hlog. run_write Hlog. by run_step He.
Qed.

(** C9: once [query_done] is set, [fetchmany] returns the empty list and
    leaves the world as it is: the cursor, the stored queries, the cache
    and the trace of datastore and cache calls. *)
Theorem fetchmany_when_done (size : nat) (w : World) :
  query_done (self w) = true -> fetchmany py_str ds size w = inr ([], w).
Proof. intros Hdone. unfold fetchmany, bindM, gets. by rewrite Hdone. Qed.

(** C6 (amended): what [fetchmany(size)] returns, for every cursor and every
    size.  A cursor that is done gives nothing.  A cursor that holds results
    gives the rows of those results, whatever [size] is.  A cursor without
    results runs its first pending query: in single-query mode without a
    cache hit, a datastore that honours [limit] gives at most [size] rows; on
    a cache hit the result is exactly one row; in multi-query mode it is the
    whole result of the multi-query, whatever [size] is. *)
Theorem fetchmany_row_count (size : nat) (w : World) (rows : list (list Value)) (w' : World) :
  (forall q limit start, length (Run ds q limit start) <= limit) ->
  fetchmany py_str ds size w = inr (rows, w') ->
  if query_done (self w) then rows = []
  else
    match results (self w) with
    | Some r => rows = map (row_of (queried_fields (self w))) (Results_iterate r).1
    | None =>
      exists q0,
        head (queries (self w)) = Some q0 /\
        match q_bound (obj (heap w) q0) with
        | Some bound =>
          rows = map (row_of (queried_fields (self w)))
                     (RunMulti ds (map (obj (heap w)) bound))
        | None =>
          (exists e, results (self w') = Some (RList [e]) /\
                     rows = [row_of (queried_fields (self w)) e]) \/
          (results (self w') = Some (RIter []) /\ length rows <= size)
        end
    end.
Proof.
  intros Hlimit H. unfold fetchmany in H.
  run_bind H as done wd Hd.
  destruct (query_done (self w)) eqn:Hdone; [by run_step H|].
  run_bind H as rs wr Hrs.
  destruct (results (self w)) as [r|] eqn:Hnone.
  { run_bind H as u1 w1 Hfirst.
    run_bind H as rs' wr' Hrs'. rewrite Hnone in H.
    destruct (Results_iterate r) as [entities r'].
    run_bind H as u4 w4 Hset'. run_write Hset'.
    run_bind H as queried wq'' Hqueried. by run_step H. }
  run_bind H as u1 w1 Hfirst.
  run_bind Hfirst as qs wq Hqs.
  destruct (bool_decide (queries (self w) = [])); [discriminate Hfirst|].
  run_bind Hfirst as q0 wq0 Hq0. apply query_get_inr in Hq0 as [-> Hq0].
  run_bind Hfirst as q wq' Hq.
  exists q0. split; [done|].
  destruct (q_bound (obj (heap w) q0)) as [bound|] eqn:Hbound.
  - run_bind Hfirst as h wh Hh. run_bind Hfirst as u2 w2 Hlog. run_write Hlog.
    run_bind Hfirst as u3 w3 Hset. run_write Hset. run_write Hfirst.
    run_bind H as rs' wr' Hrs'. simpl in H.
    run_bind H as u4 w4 Hset'. run_write Hset'.
    run_bind H as queried wq'' Hqueried. by run_step H.
  - run_bind Hfirst as filters wf Hf. run_bind Hfirst as model wm Hm.
    run_bind Hfirst as entity_from_cache wc Hprobe.
    assert (same_cursor w wc) as [Hself Hheap].
    { destruct (all_filters (self w)) as [|f fs]; [by run_step Hprobe|].
      destruct (last_query_model (self w)) as [model|]; [|by run_step Hprobe].
      by eapply probe_cache_same_cursor. }
    destruct entity_from_cache as [e|].
    + left. exists e.
      run_bind Hfirst as u2 w2 Hset. run_write Hset.
      run_bind Hfirst as u3 w3 Hset'. run_write Hset'. run_write Hfirst.
      run_bind H as rs' wr' Hrs'. simpl in H.
      run_bind H as u4 w4 Hset''. run_write Hset''.
      run_bind H as queried wq'' Hqueried. run_step H. simpl. by rewrite Hself.
    + right.
      run_bind Hfirst as start ws Hstart. run_bind Hfirst as u2 w2 Hlog. run_write Hlog.
      run_bind Hfirst as u3 w3 Hset. run_write Hset.
      run_bind Hfirst as u4 w4 Hset'. run_write Hset'. run_write Hfirst.
      run_bind H as rs' wr' Hrs'. simpl in H.
      run_bind H as u5 w5 Hset''. run_write Hset''.
      run_bind H as queried wq'' Hqueried. run_step H. simpl.
      split; [done|]. rewrite length_map. apply Hlimit.
Qed.
End Fetch.

Lemma fetchmany_when_done_witness :
  fetchmany str_of_text two_posts 5 World_init = inr ([], World_init).
Proof. apply (fetchmany_when_done str_of_text two_posts 5 World_init). reflexivity. Defined.

(** C6, as stated, fails: in multi-query mode [fetchmany(1)] returns both
    rows of the result. *)
Lemma fetchmany_multi_query_ignores_size :
  exists rows w',
    fetchmany str_of_text two_posts 1 (after_select Post [] slug_in_a_b) = inr (rows, w') /\
    rows = [[VInt 1; VStr "a"]; [VInt 2; VStr "b"]] /\
    ~ length rows <= 1.
Proof.
  eexists _, _. split; [by vm_compute|]. split; [done|]. simpl. lia.
Qed.

Lemma two_posts_honours_limit q limit start : length (Run two_posts q limit start) <= limit.
Proof. simpl. rewrite length_take. lia. Qed.

Lemma fetchmany_row_count_witness :
  exists rows w',
    fetchmany str_of_text two_posts 1 (after_select Post [] slug_is_a) = inr (rows, w') /\
    length rows <= 1.
Proof.
  eexists _, _. split; [by vm_compute|].
  pose proof (fetchmany_row_count str_of_text two_posts 1 (after_select Post [] slug_is_a)
                _ _ two_posts_honours_limit ltac:(by vm_compute)) as Hrows.
  change (query_done (self (after_select Post [] slug_is_a))) with false in Hrows.
  change (results (self (after_select Post [] slug_is_a))) with (@None Results) in Hrows.
  cbv beta iota in Hrows. destruct Hrows as (q0 & Hq0 & Hrows).
  injection Hq0 as <-.
  change (q_bound (obj (heap (after_select Post [] slug_is_a)) 0)) with (@None (list nat))
    in Hrows.
  cbv beta iota in Hrows. destruct Hrows as [(e & _ & ->)|[_ Hrows]]; [simpl; lia|exact Hrows].
Defined.

(** The first scenario of the spec: [slug = "a"] is one native query, one
    flat filter, and the cache is probed under the key of the unique
    constraint on [slug] before the datastore is asked. *)
Example fetchmany_probes_the_cache :
  exists rows w',
    fetchmany str_of_text two_posts 1 (after_select Post [] slug_is_a) = inr (rows, w') /\
    all_filters (self w') = [("slug", "=", VStr "a")] /\
    map (fun ev => match ev with
                   | EvCacheGet key => key
                   | EvRun _ _ _ => "Run"
                   | _ => ""
                   end) (trace w') = ["blog.post|slug:a"; "Run"].
Proof. eexists _, _. split; [by vm_compute|]. split; by vm_compute. Qed.

(** C10: an [in] leaf with no values empties the set of pending queries, and
    the first [fetchmany] that follows raises [DatabaseError] whatever the
    size. *)
Theorem empty_in_list_raises_on_fetch
    (py_str : Value -> string) (ds : Datastore) (size : nat) :
  exists w,
    execute_appengine_query py_str ds Doc
      (SelectQuery [] (Node AND false [leaf_on f_id "in" (VList [])])) World_init
    = inr (tt, w) /\
    queries (self w) = [] /\
    native_queries w = [] /\
    exists msg, fetchmany py_str ds size w = inl (DatabaseError msg).
Proof.
  eexists. split; [by vm_compute|]. split; [done|]. split; [done|].
  eexists. by vm_compute.
Qed.

(** * Further properties of the code *)

(** ** Parsing a leaf *)

(** X1: a leaf whose alias names another table is refused: the backend has
    no joins. *)
Theorem parse_child_rejects_joins (model : Model) (leaf : Leaf) (alias : string) :
  c_alias leaf = Some alias -> alias <> "" -> alias <> db_table model ->
  exists msg, _parse_child model leaf = inl (DatabaseError msg).
Proof.
  intros Halias Hne Hother. unfold _parse_child. rewrite Halias.
  apply String.eqb_neq in Hne, Hother. rewrite Hne, Hother. simpl. eauto.
Qed.

Lemma parse_child_rejects_joins_witness :
  exists msg,
    _parse_child Post (mkLeaf (Some "author") "name" f_slug "exact" VNone (VList [VStr "x"]))
    = inl (DatabaseError msg).
Proof.
  apply (parse_child_rejects_joins Post _ "author"); [reflexivity|discriminate..].
Defined.

(** X2: a list of two or more values is refused for every lookup other than
    [in], [range] and [year]. *)
Theorem normalize_value_rejects_lists (l : list Value) (lookup_type : string) (annotation : Value) :
  1 < length l -> lookup_type ∉ ["in"; "range"; "year"] ->
  exists msg, normalize_value (VList l) lookup_type annotation = inl (DatabaseError msg).
Proof.
  intros Hlen Hlookup. unfold normalize_value.
  destruct (str_in lookup_type ["in"; "range"; "year"]) eqn:Hin.
  { by apply str_in_spec in Hin. }
  simpl. apply Nat.ltb_lt in Hlen. rewrite Hlen. simpl. eauto.
Qed.

Lemma normalize_value_rejects_lists_witness :
  exists msg,
    normalize_value (VList [VInt 1; VInt 2]) "exact" VNone = inl (DatabaseError msg).
Proof.
  apply (normalize_value_rejects_lists [VInt 1; VInt 2] "exact" VNone).
  - simpl. lia.
  - by apply (bool_decide_unpack _).
Defined.

(** X3: the list [get_db_prep_lookup] wraps a value in is undone: for a
    comparison lookup a one-element list gives its element, for [isnull] the
    value becomes the annotation, and the lists of [in], [range] and [year]
    are kept. *)
Theorem normalize_value_unwraps (v annotation : Value) (l : list Value) (lookup_type : string) :
  (lookup_type ∈ ["exact"; "gt"; "gte"; "lt"; "lte"] ->
   normalize_value (VList [v]) lookup_type annotation = inr v) /\
  (length l <= 1 -> normalize_value (VList l) "isnull" annotation = inr annotation) /\
  (lookup_type ∈ ["in"; "range"; "year"] ->
   normalize_value (VList l) lookup_type annotation = inr (VList l)).
Proof.
  split; [|split].
  - intros Hin. repeat (apply elem_of_cons in Hin as [->|Hin]; [reflexivity|]).
    by apply elem_of_nil in Hin.
  - intros Hlen. unfold normalize_value. simpl.
    destruct (1 <? length l) eqn:Hlt; [apply Nat.ltb_lt in Hlt; lia|]. reflexivity.
  - intros Hin. repeat (apply elem_of_cons in Hin as [->|Hin]; [reflexivity|]).
    by apply elem_of_nil in Hin.
Qed.

Lemma normalize_value_unwraps_witness :
  normalize_value (VList [VStr "hello"]) "exact" VNone = inr (VStr "hello").
Proof.
  apply (normalize_value_unwraps (VStr "hello") VNone [] "exact").
  by apply (bool_decide_unpack _).
Defined.

(** X4: when the constraint's column is not the column of its field, the
    field must be a primary key and the leaf is read as a filter on the
    foreign key named by the column without its last three characters
    ([_id]); that field must carry a relation. *)
Theorem parse_child_foreign_key (model : Model) (leaf : Leaf)
    (field : Field) (lookup_type : string) (value : Value) :
  c_column leaf <> f_column (c_field leaf) ->
  _parse_child model leaf = inr (field, lookup_type, value) ->
  f_primary_key (c_field leaf) = true /\
  get_field model (String.substring 0 (String.length (c_column leaf) - 3) (c_column leaf))
  = inr field /\
  f_rel field = true /\
  lookup_type = c_lookup_type leaf.
Proof.
  intros Hcol H. unfold _parse_child in H.
  destruct (match c_alias leaf with Some a => _ | None => false end); [discriminate H|].
  apply String.eqb_neq in Hcol. rewrite Hcol in H. simpl in H.
  destruct (f_primary_key (c_field leaf)); [|discriminate H]. simpl in H.
  apply bind_inr in H as (field' & Hfield & H).
  apply bind_inr in Hfield as (f & Hget & Hrel).
  destruct (f_rel f) eqn:Hf; [|discriminate Hrel]. injection Hrel as <-.
  apply bind_inr in H as (value' & _ & H). injection H as <- <- <-. done.
Qed.

Lemma parse_child_foreign_key_witness :
  f_primary_key (c_field author_leaf) = true /\
  get_field Comment (String.substring 0 (String.length (c_column author_leaf) - 3)
                                      (c_column author_leaf))
  = inr f_author /\
  f_rel f_author = true /\
  "exact" = c_lookup_type author_leaf.
Proof.
  apply (parse_child_foreign_key Comment author_leaf f_author "exact" (VInt 7)).
  - discriminate.
  - reflexivity.
Defined.

(** ** Unique constraints *)

Lemma mapM_inl {A B} (f : A -> Res B) xs x e :
  x ∈ xs -> f x = inl e -> (forall y e', f y = inl e' -> e' = e) ->
  mapM f xs = inl e.
Proof.
  intros Hin Hx Honly. induction xs as [|y xs IH]; [by apply elem_of_nil in Hin|].
  simpl. destruct (f y) as [e'|b] eqn:Hy.
  - simpl. f_equal. by eapply Honly.
  - simpl. apply elem_of_cons in Hin as [->|Hin]; [congruence|].
    by rewrite IH.
Qed.

Lemma get_field_error model name e : get_field model name = inl e -> e = FieldDoesNotExist.
Proof. unfold get_field. destruct (find _ _); [discriminate|]. by intros [= <-]. Qed.

(** X5: a [unique_together] that names a field the model does not have makes
    the enumeration fail with [FieldDoesNotExist]. *)
Theorem get_uniques_from_model_unknown_field (model : Model) (names : list string) (name : string) :
  names ∈ unique_together model -> name ∈ names ->
  find (fun f => String.eqb (f_name f) name) (fields model) = None ->
  get_uniques_from_model model = inl FieldDoesNotExist.
Proof.
  intros Hnames Hname Hfind. unfold get_uniques_from_model.
  rewrite (mapM_inl _ (unique_together model) names FieldDoesNotExist); [done|done| |].
  - apply (mapM_inl _ names name); [done| |].
    + unfold get_field. by rewrite Hfind.
    + intros y e' H. destruct (get_field model y) as [e''|f] eqn:Hy; [|discriminate H].
      injection H as <-. by eapply get_field_error.
  - intros ys e' H. clear -H. induction ys as [|y ys IH]; [discriminate H|].
    simpl in H. destruct (get_field model y) as [e''|f] eqn:Hy.
    + injection H as <-. by eapply get_field_error.
    + simpl in H. destruct (mapM _ ys) as [e''|cs]; [|discriminate H].
      injection H as <-. by apply IH.
Qed.

Lemma get_uniques_from_model_unknown_field_witness :
  get_uniques_from_model (mkModel "blog" "post" [f_id; f_slug] f_id [["slug"; "title"]])
  = inl FieldDoesNotExist.
Proof.
  apply (get_uniques_from_model_unknown_field _ ["slug"; "title"] "title").
  - by apply (bool_decide_unpack _).
  - by apply (bool_decide_unpack _).
  - reflexivity.
Defined.

(** ** The traversal *)

(** X6: a tree whose root is an OR that is not negated is refused with
    [DatabaseError], whatever its children are. *)
Theorem or_root_is_refused (py_str : Value -> string) (ds : Datastore) (model : Model)
    (select : list string) (children : list Tree) (w : World) :
  exists msg,
    execute_appengine_query py_str ds model (SelectQuery select (Node OR false children)) w
    = inl (DatabaseError msg).
Proof.
  unfold execute_appengine_query, query_set, bindM. simpl.
  destruct (queries (self w)); simpl; eauto.
Qed.

Lemma apply_filter_body_negated ds rec negated1 negated2 :
  (forall model field v l w,
     rec model field "exact" negated1 v (Some l) w
     = rec model field "exact" negated2 v (Some l) w) ->
  forall model field lookup_type value query_to_update w,
    _apply_filter_body ds rec model field lookup_type negated1 value query_to_update w
    = _apply_filter_body ds rec model field lookup_type negated2 value query_to_update w.
Proof.
  intros Hrec model field lookup_type value query_to_update w.
  unfold _apply_filter_body.
  apply bindM_ext; [done|]. intros target w1.
  destruct (dict_get OPERATORS_MAP lookup_type) as [[op|]|]; [done| |done].
  apply bindM_ext; [done|]. intros _ w2.
  destruct (String.eqb lookup_type "in"); [|done].
  apply bindM_ext; [done|]. intros qs w3.
  apply bindM_ext; [|done].
  apply forM_ext. intros query w4.
  apply bindM_ext; [done|]. intros vs w5.
  apply forM_ext. intros v w6.
  apply bindM_ext; [done|]. intros old w7.
  apply bindM_ext; [done|]. intros new_query w8.
  apply bindM_ext; [apply Hrec|done].
Qed.

(** The [negated] argument of [_apply_filter] is handed on and never read. *)
Lemma apply_filter_negated ds negated1 negated2 model field lookup_type value query_to_update w :
  _apply_filter ds model field lookup_type negated1 value query_to_update w
  = _apply_filter ds model field lookup_type negated2 value query_to_update w.
Proof.
  unfold _apply_filter. apply apply_filter_body_negated.
  intros model' field' v l w'. reflexivity.
Qed.

Lemma apply_filters_node ds model connector where_negated children all_filters negated :
  _apply_filters ds model (Node connector where_negated children) all_filters negated
  = (let! negated := if where_negated then py_not negated else retM negated in
     let! t := truth negated in
     if negb t && negb (match connector with AND => true | OR => false end) then
       raiseM (DatabaseError "Only AND filters are supported")
     else children_loop ds model all_filters negated children).
Proof. reflexivity. Qed.

Lemma children_loop_negated ds model all_filters negated1 negated2 children w :
  Forall is_leaf children ->
  children_loop ds model all_filters negated1 children w
  = children_loop ds model all_filters negated2 children w.
Proof.
  intros Hleaves. revert w.
  induction Hleaves as [|child rest Hchild _ IH]; intros w; [done|].
  destruct child as [leaf|]; [|done]. simpl.
  apply bindM_ext; [|intros _ w1; apply IH].
  apply bindM_ext; [done|]. intros [[field lookup_type] value] w1.
  apply bindM_ext; [apply apply_filter_negated|done].
Qed.

(** X7: negation is not lowered.  A negated root over leaves, AND or OR, is
    lowered exactly like the plain conjunction of the same leaves: same
    result, same error. *)
Theorem negated_root_is_lowered_as_conjunction (ds : Datastore) (model : Model) (connector : Connector)
    (children : list Tree) (w : World) :
  Forall is_leaf children ->
  _apply_filters ds model (Node connector true children) AFilters (ABool false) w
  = _apply_filters ds model (Node AND false children) AFilters (ABool false) w.
Proof.
  intros Hleaves. rewrite !apply_filters_node.
  unfold bindM, py_not, truth, retM. simpl.
  replace (negb match connector with AND => true | OR => false end && false)
    with false by (by destruct connector).
  destruct connector; by apply children_loop_negated.
Qed.

Lemma negated_root_is_lowered_as_conjunction_witness :
  _apply_filters two_posts Post (Node OR true [leaf_on f_slug "exact" (VList [VStr "a"])])
                 AFilters (ABool false) (after_select Post [] (Node AND false []))
  = _apply_filters two_posts Post (Node AND false [leaf_on f_slug "exact" (VList [VStr "a"])])
                   AFilters (ABool false) (after_select Post [] (Node AND false [])).
Proof.
  apply (negated_root_is_lowered_as_conjunction two_posts Post OR).
  repeat constructor.
Defined.

(** ** Applying one filter *)

Lemma query_get_head w q0 :
  head (queries (self w)) = Some q0 -> query_get w = inr (q0, w).
Proof.
  unfold query_get, bindM, gets. destruct (queries (self w)); [discriminate|].
  by intros [= ->].
Qed.

(** X8: a lookup that [OPERATORS_MAP] does not list is refused with
    [DatabaseError] as soon as a query is pending. *)
Theorem unknown_lookup_is_refused (ds : Datastore) (model : Model) (field : Field) (lookup_type : string)
    (negated : PyArg) (value : Value) (w : World) :
  dict_get OPERATORS_MAP lookup_type = None -> queries (self w) <> [] ->
  exists msg,
    _apply_filter ds model field lookup_type negated value None w = inl (DatabaseError msg).
Proof.
  intros Hop Hqs. unfold _apply_filter, _apply_filter_body at 1.
  destruct (queries (self w)) as [|q0 qs] eqn:Hq; [done|].
  unfold bindM at 1. rewrite (query_get_head w q0) by (by rewrite Hq).
  rewrite Hop. eauto.
Qed.

Lemma unknown_lookup_is_refused_witness :
  exists msg,
    _apply_filter two_posts Post f_slug "contains" (ABool false) (VStr "a") None
                  (after_select Post [] (Node AND false []))
    = inl (DatabaseError msg).
Proof.
  apply (unknown_lookup_is_refused two_posts Post f_slug "contains"); [reflexivity|discriminate].
Defined.

(** X9: the projection guard changes nothing when the first pending query
    has no projection, when the column is not projected, or when neither the
    storage type nor the lookup forbids the projection. *)
Theorem update_projection_state_keeps (field : Field) (lookup_type : string) (w : World)
    (q0 : loc) :
  head (queries (self w)) = Some q0 ->
  (forall p, proj_at w q0 = Some p -> f_column field ∈ p ->
             forbids_projection field lookup_type = false) ->
  _update_projection_state field lookup_type w = inr (tt, w).
Proof.
  intros Hq0 Hkeep. unfold _update_projection_state.
  unfold bindM at 1. rewrite (query_get_head w q0) by done.
  unfold bindM at 1, deref at 1, gets at 1. unfold proj_at in Hkeep.
  destruct (q_projection (obj (heap w) q0)) as [p|]; [|done].
  destruct (bool_decide (p = [])); [done|].
  destruct (str_in (f_column field) p) eqn:Hin; [|done].
  apply str_in_spec in Hin. specialize (Hkeep p eq_refl Hin).
  unfold forbids_projection in Hkeep. by rewrite Hkeep.
Qed.

Lemma update_projection_state_keeps_witness :
  _update_projection_state f_title "gt" (after_select Doc ["title"; "body"] (Node AND false []))
  = inr (tt, after_select Doc ["title"; "body"] (Node AND false [])).
Proof.
  apply (update_projection_state_keeps f_title "gt" _ 0); [reflexivity|].
  intros p _ _. reflexivity.
Defined.

(** X10: a comparison filter is set on the first pending query and on no
    other.  When the guard does not fire, the outcome of the call is that of
    the SDK's check of the filter against that query: its exception, or the
    triple, with that one item of that one query as the only change to the
    world. *)
Theorem comparison_filter_reaches_first_query_only (ds : Datastore) (model : Model)
    (field : Field) (lookup_type op : string) (negated : PyArg) (value : Value) (w : World)
    (q0 : loc) :
  dict_get OPERATORS_MAP lookup_type = Some (Some op) ->
  head (queries (self w)) = Some q0 ->
  (forall p, proj_at w q0 = Some p -> f_column field ∈ p ->
             forbids_projection field lookup_type = false) ->
  _apply_filter ds model field lookup_type negated value None w
  = match CheckFilter ds (obj (heap w) q0) (filter_column field +:+ " " +:+ op) value with
    | Some e => inl e
    | None => inr (Some (filter_column field, op, value),
                   with_filter w q0 (filter_column field +:+ " " +:+ op) value)
    end.
Proof.
  intros Hop Hq0 Hkeep. unfold _apply_filter, _apply_filter_body at 1.
  unfold bindM at 1. rewrite (query_get_head w q0) by done.
  rewrite Hop. unfold bindM at 1.
  rewrite (update_projection_state_keeps field lookup_type w q0) by done.
  unfold bindM at 1, deref at 1, gets at 1. unfold bindM at 1, lift at 1.
  unfold Query_setitem. fold (filter_column field).
  by destruct (CheckFilter ds (obj (heap w) q0) _ value).
Qed.

Lemma comparison_filter_reaches_first_query_only_witness :
  _apply_filter two_posts Doc f_title "gt" (ABool false) (VStr "x") None
                (after_select Doc [] (Node AND false []))
  = inr (Some ("title", ">", VStr "x"),
         with_filter (after_select Doc [] (Node AND false [])) 0 "title >" (VStr "x")) /\
  _apply_filter two_posts Doc f_title "gt" (ABool false) (VInt (2 ^ 63)) None
                (after_select Doc [] (Node AND false []))
  = inl OverflowError /\
  _apply_filter two_posts Doc f_id "exact" (ABool false) (VInt 5) None
                (after_select Doc [] (Node AND false []))
  = inl BadFilterError.
Proof.
  assert (forall p, proj_at (after_select Doc [] (Node AND false [])) 0 = Some p ->
                    f_column f_id ∈ p -> forbids_projection f_id "exact" = false) as Hkey.
  { intros p Hp. vm_compute in Hp. discriminate Hp. }
  assert (forall p, proj_at (after_select Doc [] (Node AND false [])) 0 = Some p ->
                    f_column f_title ∈ p -> forbids_projection f_title "gt" = false) as Hkeep.
  { intros p Hp. vm_compute in Hp. discriminate Hp. }
  split; [|split].
  - exact (comparison_filter_reaches_first_query_only two_posts Doc f_title "gt" ">"
             (ABool false) (VStr "x") (after_select Doc [] (Node AND false [])) 0
             eq_refl eq_refl Hkeep).
  - exact (comparison_filter_reaches_first_query_only two_posts Doc f_title "gt" ">"
             (ABool false) (VInt (2 ^ 63)) (after_select Doc [] (Node AND false [])) 0
             eq_refl eq_refl Hkeep).
  - exact (comparison_filter_reaches_first_query_only two_posts Doc f_id "exact" "="
             (ABool false) (VInt 5) (after_select Doc [] (Node AND false [])) 0
             eq_refl eq_refl Hkey).
Defined.


(** ** What the lowering leaves alone *)

Lemma lowering_frame_refl w : lowering_frame w w.
Proof. done. Qed.

Lemma lowering_frame_trans w1 w2 w3 :
  lowering_frame w1 w2 -> lowering_frame w2 w3 -> lowering_frame w1 w3.
Proof. unfold lowering_frame. congruence. Qed.

Lemma forM_frame {A B} (body : A -> M B) xs w ys w' :
  (forall x w1 y w2, body x w1 = inr (y, w2) -> lowering_frame w1 w2) ->
  forM xs body w = inr (ys, w') -> lowering_frame w w'.
Proof.
  intros Hbody Hrun.
  eapply (forM_spec lowering_frame (fun _ _ => True)) in Hrun as (Hframe & _);
    [done|apply lowering_frame_refl|apply lowering_frame_trans|done|].
  intros x w1 y w2 _ _ Hx. split; [by eapply Hbody|done].
Qed.

Lemma update_projection_state_frame field lookup_type w u w' :
  _update_projection_state field lookup_type w = inr (u, w') -> lowering_frame w w'.
Proof.
  unfold _update_projection_state. intros H.
  run_bind H as q0 wq Hq0. apply query_get_inr in Hq0 as [-> Hq0].
  run_bind H as q wq' Hq.
  destruct (q_projection (obj (heap w) q0)) as [p|]; [|by run_step H].
  destruct (bool_decide (p = []) || negb (str_in (f_column field) p)); [by run_step H|].
  destruct (str_in (f_db_type field) ["text"; "bytes"] || str_in lookup_type ["exact"; "in"]);
    [|by run_step H].
  run_bind H as qs wqs Hqs. run_bind H as new_queries w1 Hloop. run_write H.
  eapply (lowering_frame_trans _ w1); [|done].
  eapply forM_frame; [|exact Hloop].
  intros x w2 y w3 Hbody. run_bind Hbody as old wo Hold. by run_write Hbody.
Qed.

Lemma apply_filter_body_frame ds rec :
  (forall model field negated v l w r w',
     rec model field "exact" negated v (Some l) w = inr (r, w') -> lowering_frame w w') ->
  forall model field lookup_type negated value query_to_update w r w',
    _apply_filter_body ds rec model field lookup_type negated value query_to_update w
    = inr (r, w') ->
    lowering_frame w w'.
Proof.
  intros Hrec model field lookup_type negated value query_to_update w r w' H.
  unfold _apply_filter_body in H.
  run_bind H as target wt Htarget.
  assert (wt = w) as ->.
  { destruct query_to_update as [l|].
    - run_bind Htarget as q wq Hq. destruct (Query_truth (obj (heap w) l)).
      + by run_step Htarget.
      + by apply query_get_inr in Htarget as [-> _].
    - by apply query_get_inr in Htarget as [-> _]. }
  destruct (dict_get OPERATORS_MAP lookup_type) as [[op|]|]; [| |discriminate H].
  - run_bind H as u1 w1 Hups. apply update_projection_state_frame in Hups.
    run_bind H as q wq Hq. run_bind H as q' wq' Hset.
    run_bind H as u2 w2 Hstore. run_write Hstore. run_step H.
    eapply (lowering_frame_trans _ w1); [exact Hups|done].
  - run_bind H as u1 w1 Hups. apply update_projection_state_frame in Hups.
    destruct (String.eqb lookup_type "in"); [|discriminate H].
    run_bind H as qs wqs Hqs. run_bind H as new_queries w2 Hloop.
    run_bind H as u2 w3 Hset. run_write Hset. run_step H.
    eapply (lowering_frame_trans _ w1); [exact Hups|].
    eapply (lowering_frame_trans _ w2); [|done].
    eapply forM_frame; [|exact Hloop].
    intros query wa ys wb Hbody. run_bind Hbody as vs wvs Hvs.
    eapply forM_frame; [|exact Hbody].
    intros v wc y wd Hv. run_bind Hv as old wo Hold. run_bind Hv as nq wn Hal.
    run_write Hal. run_bind Hv as r' wr Hcall. run_step Hv.
    eapply lowering_frame_trans; [|eapply Hrec; exact Hcall]. done.
Qed.

Lemma apply_filter_frame ds model field lookup_type negated value query_to_update w r w' :
  _apply_filter ds model field lookup_type negated value query_to_update w = inr (r, w') ->
  lowering_frame w w'.
Proof.
  unfold _apply_filter. apply apply_filter_body_frame.
  intros model' field' negated' v l wa r' wb. apply apply_filter_body_frame.
  intros ? ? ? ? ? ? ? ?. discriminate.
Qed.

Lemma apply_filters_frame ds model t :
  forall target negated w u w',
    _apply_filters ds model t target negated w = inr (u, w') -> lowering_frame w w'.
Proof.
  induction t as [leaf|connector where_negated children IH] using Tree_nested_ind;
    intros target negated w u w' H; [discriminate H|].
  rewrite apply_filters_node in H.
  run_bind H as negated' w1 Hneg.
  assert (w1 = w) as ->.
  { destruct where_negated; [by apply py_not_inr in Hneg|by run_step Hneg]. }
  clear Hneg.
  run_bind H as t w2 Ht. apply truth_inr in Ht as ->.
  destruct (negb t && negb match connector with AND => true | OR => false end);
    [discriminate H|].
  clear t. revert w H.
  induction IH as [|child rest Hchild _ IHrest]; intros w H.
  - simpl in H. by run_step H.
  - simpl in H. run_bind H as u1 w1 Hhead.
    eapply (lowering_frame_trans _ w1); [|by apply IHrest].
    destruct child as [leaf|c n ch]; [|by eapply Hchild].
    run_bind Hhead as parsed wp Hparse. destruct parsed as [[field lookup_type] value].
    run_bind Hhead as applied wa Happly. apply apply_filter_frame in Happly.
    eapply (lowering_frame_trans _ wa); [exact Happly|].
    destruct applied as [x|]; [|by run_step Hhead].
    destruct target; [discriminate Hhead|]. simpl in Hhead.
    run_bind Hhead as fs wf Hfs. by run_write Hhead.
Qed.

(** ** The executor *)

Lemma replace_first_length x y l : length (replace_first x y l) = length l.
Proof.
  induction l as [|z l IH]; simpl; [done|].
  destruct (String.eqb z x); simpl; [done|]. by rewrite IH.
Qed.

Section ExecutorProperties.
Variable py_str : Value -> string.
Variable ds : Datastore.

(** X11: an accepted select makes no call to the datastore or the cache and
    keeps the results, the continuation token and the returned ids the cursor
    holds; it records the model, the output columns with the primary key
    renamed to [__key__], and clears [query_done]. *)
Theorem select_prepares_the_cursor (model : Model) (select : list string) (where_ : Tree)
    (w : World) (u : unit) (w' : World) :
  execute_appengine_query py_str ds model (SelectQuery select where_) w = inr (u, w') ->
  cache w' = cache w /\ trace w' = trace w /\
  results (self w') = results (self w) /\
  start_cursor (self w') = start_cursor (self w) /\
  returned_ids (self w') = returned_ids (self w) /\
  query_done (self w') = false /\
  last_query_model (self w') = Some model /\
  queried_fields (self w')
  = replace_first (f_name (pk model)) "__key__"
      (if bool_decide (select = []) then map f_column (fields model) else select).
Proof.
  intros H. unfold execute_appengine_query in H.
  run_bind H as u1 w1 H1. run_write H1.
  run_bind H as q w2 Halloc. run_write Halloc.
  run_bind H as u2 w3 Hset.
  run_bind H as u3 w4 Hfilters. run_write Hfilters.
  run_bind H as u4 w5 Hlower.
  run_bind H as qs wqs Hqs.
  run_bind H as u5 w6 Hwrap. run_bind H as u6 w7 Hmodel. run_write Hmodel.
  run_write H.
  apply apply_filters_frame in Hlower. unfold lowering_frame, outside_lowering in Hlower.
  assert (outside_lowering w6 = outside_lowering w5) as Hwrapped.
  { destruct (queries (self w5)) as [|qa [|qb qs]].
    - by run_step Hwrap.
    - by run_step Hwrap.
    - run_bind Hwrap as h wh Hh. run_bind Hwrap as multi wmq Hmulti.
      run_bind Hwrap as m wm Hm. run_write Hm. by run_write Hwrap. }
  unfold outside_lowering in Hwrapped.
  unfold query_set in Hset. run_bind Hset as qs' wq' Hqs'. simpl in Hset.
  destruct (queries (self w)); injection Hset as <- <-; simpl in *;
    injection Hlower as Hc Ht Hr Hs Hi Hq Hd Hm;
    injection Hwrapped as Hc' Ht' Hr' Hs' Hi' Hq' Hd' Hm';
    repeat split; congruence.
Qed.

(** The cache probe only reads the cache, and each read is in the trace. *)
Lemma probe_cache_trace model filters w r w' :
  probe_cache py_str model filters w = inr (r, w') ->
  same_cursor w w' /\ cache w' = cache w /\
  (exists evs, trace w' = trace w ++ evs /\ Forall is_cache_get evs) /\
  (forall e, r = Some e -> exists key, cache w !! key = Some e).
Proof.
  unfold probe_cache. intros H.
  run_bind H as uniques wu Hu. run_bind H as found wf Hfound. run_step H.
  set (R := fun w w' : World =>
              same_cursor w w' /\ cache w' = cache w /\
              exists evs, trace w' = trace w ++ evs /\ Forall is_cache_get evs).
  set (P := fun (y : option (option Entity)) (w' : World) =>
              forall e, y = Some (Some e) -> exists key, cache w' !! key = Some e).
  eapply (forM_spec R P) in Hfound as ((Hsame & Hcache & Hevs) & Hfound & _).
  - split; [done|]. split; [done|]. split; [done|].
    intros e He. rewrite <- Hcache.
    assert (forall acc,
              foldl (fun (entity_from_cache : option Entity) (r : option (option Entity)) =>
                       match r with Some e => e | None => entity_from_cache end) acc found
              = Some e ->
              acc = Some e \/ exists key, cache wf !! key = Some e) as Hfold.
    { clear He. induction Hfound as [|y ys Hy _ IH]; intros acc Hacc; [by left|].
      simpl in Hacc. apply IH in Hacc as [Hacc|Hacc]; [|by right].
      destruct y as [o|]; [|by left]. right. apply Hy. by rewrite Hacc. }
    destruct (Hfold None He) as [Hnone|Hkey]; [discriminate Hnone|done].
  - intros w0. split; [done|]. split; [done|]. exists []. by rewrite app_nil_r.
  - intros w1 w2 w3 ([Hs1 Hh1] & Hc1 & evs1 & Ht1 & He1) ([Hs2 Hh2] & Hc2 & evs2 & Ht2 & He2).
    split; [split; congruence|]. split; [congruence|].
    exists (evs1 ++ evs2). split; [by rewrite Ht2, Ht1, app_assoc|by apply Forall_app].
  - intros y w1 w2 Hy (_ & Hc & _) e He. rewrite Hc. by apply Hy.
  - intros fields w1 y w2 _ _ Hbody.
    destruct (mapM _ fields) as [e|final_key].
    + run_step Hbody. split; [|by intros e' [=]].
      split; [done|]. split; [done|]. exists []. by rewrite app_nil_r.
    + run_bind Hbody as e we He. run_step Hbody.
      unfold get_entity_from_cache in He.
      run_bind He as u1 wl Hlog. run_write Hlog. run_step He. simpl.
      split.
      * split; [done|]. split; [done|]. eexists [_]. split; [done|].
        constructor; [exact I|constructor].
      * intros e' [= He']. eauto.
Qed.

(** X12: a first fetch makes at most one call to the datastore.  In
    multi-query mode it is one run of the multi-query, without a limit; in
    single-query mode the cache is probed first, a hit gives an entity that
    is in the cache and no datastore call at all, and a miss gives one [Run]
    with [limit=size] from the stored continuation token.  Multi-query mode
    and a cache hit mark the cursor as done. *)
Theorem fetchmany_calls (size : nat) (w : World) (rows : list (list Value)) (w' : World)
    (q0 : loc) :
  query_done (self w) = false -> results (self w) = None ->
  head (queries (self w)) = Some q0 ->
  fetchmany py_str ds size w = inr (rows, w') ->
  match q_bound (obj (heap w) q0) with
  | Some bound =>
    trace w' = trace w ++ [EvRunMulti (map (obj (heap w)) bound)] /\
    query_done (self w') = true
  | None =>
    exists probes,
      Forall is_cache_get probes /\
      ((exists e key, results (self w') = Some (RList [e]) /\ cache w !! key = Some e /\
                      trace w' = trace w ++ probes /\
                      query_done (self w') = true /\ start_cursor (self w') = None) \/
       (trace w' = trace w ++ probes ++ [EvRun (obj (heap w) q0) size (start_cursor (self w))] /\
        start_cursor (self w')
        = Some (GetCursor ds (obj (heap w) q0) size (start_cursor (self w)))))
  end.
Proof.
  intros Hdone Hnone Hq0 H. unfold fetchmany in H.
  run_bind H as done wd Hd. rewrite Hdone in H.
  run_bind H as rs wr Hrs. rewrite Hnone in H.
  run_bind H as u1 w1 Hfirst.
  run_bind Hfirst as qs wq Hqs.
  destruct (bool_decide (queries (self w) = [])); [discriminate Hfirst|].
  run_bind Hfirst as q0' wq0 Hq0'. apply query_get_inr in Hq0' as [-> Hq0'].
  assert (q0' = q0) as -> by congruence.
  run_bind Hfirst as q wq' Hq.
  destruct (q_bound (obj (heap w) q0)) as [bound|] eqn:Hbound.
  - run_bind Hfirst as h wh Hh. run_bind Hfirst as u2 w2 Hlog. run_write Hlog.
    run_bind Hfirst as u3 w3 Hset. run_write Hset. run_write Hfirst.
    run_bind H as rs' wr' Hrs'. simpl in H.
    run_bind H as u4 w4 Hset'. run_write Hset'.
    run_bind H as queried wq'' Hqueried. by run_step H.
  - run_bind Hfirst as filters wf Hf. run_bind Hfirst as model wm Hm.
    run_bind Hfirst as entity_from_cache wc Hprobe.
    assert (same_cursor w wc /\ cache wc = cache w /\
            (exists evs, trace wc = trace w ++ evs /\ Forall is_cache_get evs) /\
            (forall e, entity_from_cache = Some e -> exists key, cache w !! key = Some e))
      as ([Hself Hheap] & Hcache & (probes & Htrace & Hprobes) & Hhit).
    { destruct (all_filters (self w)) as [|f fs].
      { run_step Hprobe. repeat split; [| discriminate].
        exists []. by rewrite app_nil_r. }
      destruct (last_query_model (self w)) as [model|].
      - by eapply probe_cache_trace.
      - run_step Hprobe. repeat split; [| discriminate].
        exists []. by rewrite app_nil_r. }
    exists probes. split; [done|].
    destruct entity_from_cache as [e|].
    + left. destruct (Hhit e eq_refl) as [key Hkey]. exists e, key.
      run_bind Hfirst as u2 w2 Hset. run_write Hset.
      run_bind Hfirst as u3 w3 Hset'. run_write Hset'. run_write Hfirst.
      run_bind H as rs' wr' Hrs'. simpl in H.
      run_bind H as u4 w4 Hset''. run_write Hset''.
      run_bind H as queried wq'' Hqueried. by run_step H.
    + right.
      run_bind Hfirst as start ws Hstart. run_bind Hfirst as u2 w2 Hlog. run_write Hlog.
      run_bind Hfirst as u3 w3 Hset. run_write Hset.
      run_bind Hfirst as u4 w4 Hset'. run_write Hset'. run_write Hfirst.
      run_bind H as rs' wr' Hrs'. simpl in H.
      run_bind H as u5 w5 Hset''. run_write Hset''.
      run_bind H as queried wq'' Hqueried. run_step H. simpl.
      rewrite Htrace, Hself. by rewrite app_assoc.
Qed.

(** X13: a cursor that holds results serves them and nothing else: no call
    is made, the rows are those of the held results in the output columns of
    the cursor, and an iterator is left empty. *)
Theorem fetchmany_serves_held_results (size : nat) (w : World) (r : Results) :
  query_done (self w) = false -> results (self w) = Some r ->
  exists w',
    fetchmany py_str ds size w
    = inr (map (row_of (queried_fields (self w))) (Results_iterate r).1, w') /\
    results (self w') = Some (Results_iterate r).2 /\
    trace w' = trace w /\ cache w' = cache w /\ queries (self w') = queries (self w).
Proof.
  intros Hdone Hres. unfold fetchmany, bindM, gets. rewrite Hdone, Hres. simpl.
  rewrite Hres. destruct (Results_iterate r) as [entities r']. simpl. eauto 10.
Qed.

(** X14: every row has one value per output column, in their order: the
    selected columns, or all columns of the model when none is selected. *)
Theorem rows_follow_the_selected_columns (model : Model) (select : list string)
    (where_ : Tree) (size : nat) (w : World) (u : unit) (w1 : World)
    (rows : list (list Value)) (w2 : World) :
  execute_appengine_query py_str ds model (SelectQuery select where_) w = inr (u, w1) ->
  fetchmany py_str ds size w1 = inr (rows, w2) ->
  (exists entities,
     rows = map (row_of (replace_first (f_name (pk model)) "__key__"
                           (if bool_decide (select = [])
                            then map f_column (fields model) else select))) entities) /\
  Forall (fun row => length row
                     = if bool_decide (select = [])
                       then length (fields model) else length select) rows.
Proof.
  intros Hexec Hfetch.
  apply select_prepares_the_cursor in Hexec as (_ & _ & _ & _ & _ & _ & _ & Hcols).
  assert (exists entities, rows = map (row_of (queried_fields (self w1))) entities)
    as [entities ->].
  { unfold fetchmany in Hfetch.
    run_bind Hfetch as done wd Hd. destruct (query_done (self w1)).
    { run_step Hfetch. by exists []. }
    run_bind Hfetch as rs wr Hrs.
    run_bind Hfetch as u1 w3 Hfirst.
    assert (queried_fields (self w3) = queried_fields (self w1)) as Hsame.
    { destruct (results (self w1)); [by run_step Hfirst|].
      run_bind Hfirst as qs wq Hqs.
      destruct (bool_decide (queries (self w1) = [])); [discriminate Hfirst|].
      run_bind Hfirst as q0 wq0 Hq0. apply query_get_inr in Hq0 as [-> Hq0].
      run_bind Hfirst as q wq' Hq.
      destruct (q_bound (obj (heap w1) q0)).
      - run_bind Hfirst as h wh Hh. run_bind Hfirst as u2 w4 Hlog. run_write Hlog.
        run_bind Hfirst as u3 w5 Hset. run_write Hset. by run_write Hfirst.
      - run_bind Hfirst as filters wf Hf. run_bind Hfirst as model' wm Hm.
        run_bind Hfirst as entity_from_cache wc Hprobe.
        assert (self wc = self w1) as Hself.
        { destruct (all_filters (self w1)) as [|f fs]; [by run_step Hprobe|].
          destruct (last_query_model (self w1)) as [m|]; [|by run_step Hprobe].
          by apply probe_cache_same_cursor in Hprobe as [? _]. }
        destruct entity_from_cache as [e|].
        + run_bind Hfirst as u2 w4 Hset. run_write Hset.
          run_bind Hfirst as u3 w5 Hset'. run_write Hset'. run_write Hfirst.
          simpl. by rewrite Hself.
        + run_bind Hfirst as start ws Hstart.
          run_bind Hfirst as u2 w4 Hlog. run_write Hlog.
          run_bind Hfirst as u3 w5 Hset. run_write Hset.
          run_bind Hfirst as u4 w6 Hset'. run_write Hset'. run_write Hfirst.
          simpl. by rewrite Hself. }
    run_bind Hfetch as rs' wr' Hrs'.
    destruct (results (self w3)) as [r|]; [|discriminate Hfetch].
    destruct (Results_iterate r) as [entities r'].
    run_bind Hfetch as u4 w4 Hset. run_write Hset.
    run_bind Hfetch as queried wq Hqueried. run_step Hfetch. simpl.
    exists entities. by rewrite Hsame. }
  rewrite Hcols. split; [by exists entities|].
  apply Forall_map. apply Forall_forall. intros e _. unfold row_of.
  rewrite length_map, replace_first_length.
  destruct (bool_decide (select = [])); [by rewrite length_map|done].
Qed.
End ExecutorProperties.

Lemma select_prepares_the_cursor_witness :
  trace (after_select Post ["slug"; "id"] slug_is_a) = trace World_init /\
  queried_fields (self (after_select Post ["slug"; "id"] slug_is_a)) = ["slug"; "__key__"].
Proof.
  destruct (select_prepares_the_cursor str_of_text two_posts Post ["slug"; "id"] slug_is_a
              World_init tt (after_select Post ["slug"; "id"] slug_is_a))
    as (_ & Htrace & _ & _ & _ & _ & _ & Hcols).
  - by vm_compute.
  - split; [exact Htrace|exact Hcols].
Defined.

Lemma fetchmany_calls_witness :
  exists rows w',
    fetchmany str_of_text two_posts 1 (after_select Post [] slug_in_a_b) = inr (rows, w') /\
    query_done (self w') = true.
Proof.
  eexists _, _. split; [by vm_compute|].
  pose proof (fetchmany_calls str_of_text two_posts 1 (after_select Post [] slug_in_a_b)
                _ _ 3 eq_refl eq_refl eq_refl ltac:(by vm_compute)) as Hcalls.
  change (q_bound (obj (heap (after_select Post [] slug_in_a_b)) 3)) with (Some [1; 2])
    in Hcalls.
  exact (proj2 Hcalls).
Defined.

Lemma fetchmany_serves_held_results_witness :
  exists w',
    fetchmany str_of_text two_posts 1 (after_fetch 1 (after_select Post [] slug_is_a))
    = inr ([], w') /\
    results (self w') = Some (RIter []) /\
    trace w' = trace (after_fetch 1 (after_select Post [] slug_is_a)) /\
    cache w' = cache (after_fetch 1 (after_select Post [] slug_is_a)) /\
    queries (self w') = queries (self (after_fetch 1 (after_select Post [] slug_is_a))).
Proof.
  apply (fetchmany_serves_held_results str_of_text two_posts 1
           (after_fetch 1 (after_select Post [] slug_is_a)) (RIter [])).
  - by vm_compute.
  - by vm_compute.
Defined.

(** X15: from a cursor that holds at most one query, the number of native
    queries handed to the executor is the product of the widths of the [in]
    leaves of the tree; two or more are wrapped in one [MultiQuery], fewer are
    handed over unwrapped. *)
Theorem native_query_count (py_str : Value -> string) (ds : Datastore) (model : Model)
    (select : list string) (where_ : Tree) (w : World) (u : unit) (w' : World) :
  length (queries (self w)) <= 1 ->
  execute_appengine_query py_str ds model (SelectQuery select where_) w = inr (u, w') ->
  length (native_queries w') = fan_out model where_ /\
  (2 <= fan_out model where_ ->
   exists m, queries (self w') = [m] /\ is_MultiQuery (obj (heap w') m) = true) /\
  (fan_out model where_ < 2 ->
   length (pending w') = fan_out model where_ /\
   Forall (fun q => is_MultiQuery q = false) (pending w')).
Proof. apply lowering_fan_out. Qed.

Lemma native_query_count_witness :
  length (native_queries (after_select Article [] title_and_slugs)) = fan_out Article title_and_slugs.
Proof.
  apply (native_query_count str_of_text two_posts Article [] title_and_slugs World_init tt
           (after_select Article [] title_and_slugs)).
  - simpl. lia.
  - by vm_compute.
Defined.

(** X16: the [query] property.  Assigning it replaces the first pending query,
    or makes the list when there is none, and leaves the others; reading it
    back gives the assigned query. *)
Theorem query_property_round_trip (value : loc) (w : World) :
  exists w',
    query_set value w = inr (tt, w') /\
    query_get w' = inr (value, w') /\
    queries (self w') = value :: tail (queries (self w)) /\
    heap w' = heap w.
Proof.
  unfold query_set, query_get, bindM, gets.
  destruct (queries (self w)) as [|q qs] eqn:Hq; simpl; eexists; repeat split.
Qed.

Lemma rows_follow_the_selected_columns_witness :
  exists rows w2,
    fetchmany str_of_text two_posts 1 (after_select Post ["slug"; "id"] slug_is_a)
    = inr (rows, w2) /\
    Forall (fun row => length row = 2) rows.
Proof.
  eexists _, _. split; [by vm_compute|].
  eapply proj2.
  eapply (rows_follow_the_selected_columns str_of_text two_posts Post ["slug"; "id"]
           slug_is_a 1 World_init tt (after_select Post ["slug"; "id"] slug_is_a)).
  - by vm_compute.
  - by vm_compute.
Defined.

(** ** The write path *)


(** X17: a field that is neither nullable nor the primary key and whose
    prepared value is None makes the conversion fail with [IntegrityError]. *)
Theorem null_in_required_field_is_refused (model : Model) (fields : list Field) (raw : bool)
    (instance : Instance) (field : Field) :
  field ∈ fields -> f_null field = false -> f_primary_key field = false ->
  prepared raw instance field = VNone ->
  exists msg,
    django_instance_to_entity model fields raw instance = inl (IntegrityError msg).
Proof.
  intros Hin Hnull Hpk Hvalue. unfold django_instance_to_entity.
  eexists. erewrite mapM_inl; [reflexivity|exact Hin| |].
  - fold (prepared raw instance field). rewrite Hnull, Hpk, Hvalue. reflexivity.
  - intros y e' Hy. simpl in Hy.
    destruct (negb (f_null y) && negb (f_primary_key y) && _); [|discriminate Hy].
    by injection Hy as <-.
Qed.

Lemma null_in_required_field_is_refused_witness :
  exists msg,
    django_instance_to_entity Post [f_id; f_slug] false draft = inl (IntegrityError msg).
Proof.
  apply (null_in_required_field_is_refused Post [f_id; f_slug] false draft f_slug).
  - apply elem_of_cons. right. apply list_elem_of_singleton. reflexivity.
  - reflexivity.
  - reflexivity.
  - reflexivity.
Defined.



Section WriteThrough.
Variable py_str : Value -> string.

Lemma forM_cache_set entity keys w us w' :
  forM keys (fun key => cache_set key entity) w = inr (us, w') ->
  self w' = self w /\ heap w' = heap w /\
  (forall key, key ∈ keys -> cache w' !! key = Some entity) /\
  (forall key, key ∉ keys -> cache w' !! key = cache w !! key).
Proof.
  revert w us. induction keys as [|k keys IH]; intros w us H.
  - apply forM_nil in H as [-> ->]. split; [done|]. split; [done|]. split; [|done].
    intros key Hin. by apply elem_of_nil in Hin.
  - apply forM_cons in H as (u & w1 & us' & Hset & Hrest & ->).
    unfold cache_set in Hset. run_bind Hset as u1 wl Hlog. run_write Hlog. run_step Hset.
    apply IH in Hrest as (Hself & Hheap & Hin & Hout). simpl in *.
    split; [done|]. split; [done|]. split.
    + intros key Hkey. destruct (decide (key ∈ keys)) as [Hk|Hk]; [by apply Hin|].
      rewrite Hout by done. apply elem_of_cons in Hkey as [->|Hkey]; [|done].
      apply lookup_insert_eq.
    + intros key Hkey. apply not_elem_of_cons in Hkey as [Hne Hkey].
      rewrite Hout by done. by apply lookup_insert_ne.
Qed.

(** X19: write-through.  After [cache_entity] the cache answers every unique
    combination of the model with the entity, under the key made of the
    entity's own values for the columns of the combination. *)
Theorem cache_entity_then_get (model : Model) (entity : Entity) (w : World)
    (u : unit) (w' : World) (uniques : list (list string)) (columns : list string) :
  get_uniques_from_model model = inr uniques ->
  cache_entity py_str model entity w = inr (u, w') ->
  columns ∈ uniques ->
  cache w' !! unique_key_of py_str model entity columns = Some entity /\
  (forall x, x ∈ columns -> is_Some (e_props entity !! x)).
Proof.
  intros Huniques H Hin. unfold cache_entity in H.
  run_bind H as uniques' wu Hu. rewrite Huniques in Hpure. injection Hpure as <-.
  run_bind H as unique_keys wk Hk. run_bind H as us w1 Hsets. run_step H.
  apply forM_cache_set in Hsets as (_ & _ & Hcached & _).
  assert (forall cols key_parts,
            mapM (fun x => match e_props entity !! x with
                           | Some v => ret (x, v)
                           | None => raise KeyError
                           end) cols = inr key_parts ->
            key_parts = map (fun x => (x, default VNone (e_props entity !! x))) cols /\
            forall x, x ∈ cols -> is_Some (e_props entity !! x)) as Hparts.
  { induction cols as [|c cols IH]; intros key_parts Hm; simpl in Hm.
    - injection Hm as <-. split; [done|]. intros x Hx. by apply elem_of_nil in Hx.
    - apply bind_inr in Hm as (kv & Hkv & Hm).
      apply bind_inr in Hm as (rest & Hrest & Hm). injection Hm as <-.
      destruct (e_props entity !! c) as [v|] eqn:Hc; [|discriminate Hkv].
      injection Hkv as <-. apply IH in Hrest as [-> Hall]. split.
      + simpl. by rewrite Hc.
      + intros x Hx. apply elem_of_cons in Hx as [->|Hx]; [by rewrite Hc|by apply Hall]. }
  clear Huniques. revert unique_keys Hpure Hcached.
  induction uniques as [|cols uniques IH]; intros unique_keys Hkeys Hcached;
    [by apply elem_of_nil in Hin|].
  simpl in Hkeys. apply bind_inr in Hkeys as (key & Hkey & Hkeys).
  apply bind_inr in Hkeys as (keys & Hrest & Hkeys). injection Hkeys as <-.
  apply elem_of_cons in Hin as [->|Hin].
  - apply bind_inr in Hkey as (key_parts & Hkp & Hkey). injection Hkey as <-.
    apply Hparts in Hkp as [-> Hall]. split; [|done].
    apply Hcached. apply elem_of_cons. by left.
  - apply (IH Hin keys Hrest). intros k Hk. apply Hcached. apply elem_of_cons. by right.
Qed.

(** [get_entity_from_cache] is a plain read of the cache. *)
Lemma get_entity_from_cache_reads key w :
  exists w', get_entity_from_cache key w = inr (cache w !! key, w') /\ cache w' = cache w.
Proof. unfold get_entity_from_cache, bindM, log_event, modify, gets. simpl. eauto. Qed.
End WriteThrough.

Lemma cache_entity_then_get_witness :
  exists w',
    cache_entity str_of_text Post (with_key Post (VInt 7) e_first) World_init = inr (tt, w') /\
    cache w' !! "blog.post|slug:a" = Some (with_key Post (VInt 7) e_first).
Proof.
  eexists. split; [by vm_compute|].
  eapply proj1.
  apply (cache_entity_then_get str_of_text Post (with_key Post (VInt 7) e_first) World_init
           tt _ [["id"]; ["slug"]] ["slug"]).
  - reflexivity.
  - by vm_compute.
  - by apply (bool_decide_unpack _).
Defined.

Section Insert.
Variable py_str : Value -> string.
Variable ds : Datastore.

Lemma cache_entity_self model entity w u w' :
  cache_entity py_str model entity w = inr (u, w') -> self w' = self w.
Proof.
  unfold cache_entity. intros H.
  run_bind H as uniques wu Hu. run_bind H as keys wk Hk.
  run_bind H as us w1 Hsets. run_step H.
  by apply forM_cache_set in Hsets as (Hs & _).
Qed.

(** X20: inserting one instance.  When the instance converts to an entity
    and [Put] answers with one key, the cursor holds that key, [lastrowid]
    returns it, and the cache answers every unique combination of the model
    with the entity as stored: under its key and with the key in the
    primary-key column. *)
Theorem insert_writes_through (model : Model) (fields : list Field) (raw : bool)
    (instance : Instance) (entity : Entity) (key : Value)
    (uniques : list (list string)) (columns : list string)
    (w : World) (u : unit) (w' : World) :
  django_instance_to_entity model fields raw instance = inr entity ->
  Put ds [entity] = [key] ->
  get_uniques_from_model model = inr uniques -> columns ∈ uniques ->
  execute_appengine_query py_str ds model (InsertQuery fields raw [instance]) w
  = inr (u, w') ->
  cache w' !! unique_key_of py_str model (with_key model key entity) columns
  = Some (with_key model key entity) /\
  returned_ids (self w') = [key] /\
  lastrowid w' = inr (key, w') /\
  query_done (self w') = false.
Proof.
  intros Hentity Hput Huniques Hin H. unfold execute_appengine_query in H.
  run_bind H as entities we He. simpl in Hpure. rewrite Hentity in Hpure.
  injection Hpure as <-.
  run_bind H as u1 w1 Hlog. run_write Hlog.
  run_bind H as u2 w2 Hids. run_write Hids.
  run_bind H as ids wi Hi. simpl in H. rewrite Hput in H. simpl in H.
  run_bind H as us w3 Hcache. run_write H.
  run_bind Hcache as u3 w4 Hone. run_bind Hcache as us' w5 Hnil. run_step Hcache.
  pose proof (cache_entity_self _ _ _ _ _ Hone) as Hself.
  apply (cache_entity_then_get py_str model _ _ _ _ uniques columns Huniques) in Hone
    as [Hcached _]; [|done].
  split; [exact Hcached|].
  unfold lastrowid, bindM, gets. simpl. rewrite Hself. simpl. done.
Qed.
End Insert.

Lemma insert_writes_through_witness :
  exists w',
    execute_appengine_query str_of_text two_posts Post
      (InsertQuery [f_id; f_slug] false [hello]) World_init = inr (tt, w') /\
    returned_ids (self w') = [VInt 7] /\
    lastrowid w' = inr (VInt 7, w') /\
    query_done (self w') = false.
Proof.
  eexists. split; [by vm_compute|].
  eapply proj2.
  eapply (insert_writes_through str_of_text two_posts Post [f_id; f_slug] false hello
            _ (VInt 7) [["id"]; ["slug"]] ["slug"] World_init tt).
  - reflexivity.
  - reflexivity.
  - reflexivity.
  - by apply (bool_decide_unpack _).
  - by vm_compute.
Defined.

(** The purpose of the cache: a post that was just inserted is found by its
    slug without asking the datastore, which here does not know it. *)
Example inserted_post_is_served_from_the_cache :
  exists w1 w2 rows w3,
    execute_appengine_query str_of_text two_posts Post
      (InsertQuery [f_id; f_slug] false [hello]) World_init = inr (tt, w1) /\
    execute_appengine_query str_of_text two_posts Post
      (SelectQuery [] (Node AND false [leaf_on f_slug "exact" (VList [VStr "hello"])]))
      (mkWorld Cursor_init (heap w1) (cache w1) []) = inr (tt, w2) /\
    fetchmany str_of_text two_posts 10 w2 = inr (rows, w3) /\
    rows = [[VInt 7; VStr "hello"]] /\
    trace w3 = [EvCacheGet "blog.post|slug:hello"].
Proof.
  eexists _, _, _, _. split; [by vm_compute|]. split; [by vm_compute|].
  split; [by vm_compute|]. split; by vm_compute.
Qed.

(** ** Nested nodes *)

Lemma parse_child_lookup_type model leaf field lookup_type value :
  _parse_child model leaf = inr (field, lookup_type, value) ->
  lookup_type = c_lookup_type leaf.
Proof.
  unfold _parse_child. intros H.
  destruct (match c_alias leaf with Some a => _ | None => false end); [discriminate H|].
  apply bind_inr in H as (field' & _ & H).
  apply bind_inr in H as (value' & _ & H). by injection H as <- <- <-.
Qed.

(** A loop that comes to its end has recorded every leaf with an operator,
    so it was handed the list, and every nested call has returned. *)
Lemma children_loop_inr ds model target negated children w u w' :
  children_loop ds model target negated children w = inr (u, w') ->
  (forall leaf op,
     TLeaf leaf ∈ children ->
     dict_get OPERATORS_MAP (c_lookup_type leaf) = Some (Some op) ->
     target = AFilters) /\
  (forall connector where_negated inner,
     Node connector where_negated inner ∈ children ->
     exists w1 u1 w2,
       _apply_filters ds model (Node connector where_negated inner) negated target w1
       = inr (u1, w2)).
Proof.
  revert w. induction children as [|child rest IH]; intros w H.
  - split; [intros leaf op Hin|intros connector where_negated inner Hin];
      by apply elem_of_nil in Hin.
  - simpl in H. run_bind H as u1 w1 Hhead. apply IH in H as [Hleaves Hnodes].
    split.
    + intros leaf op Hin Hop. apply elem_of_cons in Hin as [<-|Hin]; [|by eapply Hleaves].
      run_bind Hhead as parsed wp Hparse. destruct parsed as [[field lookup_type] value].
      apply parse_child_lookup_type in Hpure as ->.
      run_bind Hhead as applied wa Happly.
      apply apply_filter_spec in Happly as (_ & -> & _). rewrite Hop in Hhead.
      destruct target; [discriminate Hhead|done].
    + intros connector where_negated inner Hin.
      apply elem_of_cons in Hin as [<-|Hin]; [eauto|by eapply Hnodes].
Qed.

(** X21: a filter in a child node of the root is never accepted.  When a
    child of the root is a node that has, among its children, a leaf whose
    lookup has an operator, the select does not return: that call is handed
    the bool [negated] in the place of the filter list. *)
Theorem nested_filter_is_never_accepted (py_str : Value -> string) (ds : Datastore)
    (model : Model) (select : list string)
    (connector : Connector) (where_negated : bool) (children : list Tree)
    (connector' : Connector) (where_negated' : bool) (inner : list Tree)
    (leaf : Leaf) (op : string) (w : World) :
  Node connector' where_negated' inner ∈ children ->
  TLeaf leaf ∈ inner ->
  dict_get OPERATORS_MAP (c_lookup_type leaf) = Some (Some op) ->
  forall u w',
    execute_appengine_query py_str ds model
      (SelectQuery select (Node connector where_negated children)) w
    <> inr (u, w').
Proof.
  intros Hchild Hleaf Hop u w' H.
  apply execute_select_inr in H as (w0 & w1 & _ & _ & _ & Hrun & _).
  rewrite apply_filters_node in Hrun.
  run_bind Hrun as negated wn Hneg.
  assert (exists b, negated = ABool b) as [b ->].
  { destruct where_negated.
    - unfold py_not in Hneg. run_bind Hneg as t wt Ht. run_step Hneg. eauto.
    - run_step Hneg. eauto. }
  run_bind Hrun as t wt Ht.
  destruct (negb t && negb match connector with AND => true | OR => false end);
    [discriminate Hrun|].
  apply children_loop_inr in Hrun as [_ Hnodes].
  destruct (Hnodes _ _ _ Hchild) as (wa & ua & wb & Hnested).
  rewrite apply_filters_node in Hnested.
  run_bind Hnested as negated' wn' Hneg'. run_bind Hnested as t' wt' Ht'.
  destruct (negb t' && negb match connector' with AND => true | OR => false end);
    [discriminate Hnested|].
  apply children_loop_inr in Hnested as [Hleaves _].
  by specialize (Hleaves leaf op Hleaf Hop).
Qed.

Lemma nested_filter_is_never_accepted_witness :
  execute_appengine_query str_of_text two_posts Doc
    (SelectQuery [] (Node AND false [Node AND false [leaf_on f_title "gt" (VList [VStr "x"])]]))
    World_init
  <> inr (tt, World_init).
Proof.
  apply (nested_filter_is_never_accepted str_of_text two_posts Doc [] AND false
           [Node AND false [leaf_on f_title "gt" (VList [VStr "x"])]]
           AND false [leaf_on f_title "gt" (VList [VStr "x"])]
           (mkLeaf None "title" f_title "gt" VNone (VList [VStr "x"])) ">").
  - apply list_elem_of_singleton. reflexivity.
  - apply list_elem_of_singleton. reflexivity.
  - reflexivity.
Defined.

(** ** The projection guard *)

Lemma unprojected_pending w :
  unprojected w -> Forall (fun q => q_projection q = None) (pending w).
Proof.
  unfold unprojected, pending. intros H. apply Forall_map.
  eapply Forall_impl; [exact H|]. intros l Hl. by apply bare_proj in Hl.
Qed.

Lemma avoids_pending c w q p :
  avoids c w -> q ∈ pending w -> q_projection q = Some p -> c ∉ p.
Proof.
  unfold pending. intros Hc Hq Hp.
  apply list_elem_of_fmap in Hq as (l & -> & Hl). by eapply Hc.
Qed.

(** Objects appended to the store are found at the next locations. *)
Lemma obj_app_seq h l : map (obj (h ++ l)) (seq (length h) (length l)) = l.
Proof.
  revert h. induction l as [|q l IH]; intros h; [done|].
  simpl. f_equal.
  - unfold obj. by rewrite list_lookup_middle.
  - specialize (IH (h ++ [q])). rewrite length_app, Nat.add_1_r in IH.
    by rewrite <- app_assoc in IH.
Qed.

(** The loop of the guard: one copy per pending query, appended to the store
    in order. *)
Lemma copy_loop qs w new w' :
  Forall (fun l => l < length (heap w)) qs ->
  forM qs (fun query => let! old := deref query in
                        alloc (Query_update (Query_new (q_kind old) None) old)) w
  = inr (new, w') ->
  new = seq (length (heap w)) (length qs) /\
  heap w'
  = heap w ++ map (fun l => Query_update (Query_new (q_kind (obj (heap w) l)) None)
                                         (obj (heap w) l)) qs /\
  self w' = self w.
Proof.
  revert w new. induction qs as [|q qs IH]; intros w new Hvalid H.
  - apply forM_nil in H as [-> ->]. by rewrite app_nil_r.
  - apply forM_cons in H as (y & w1 & ys & Hq & Hqs & ->).
    apply Forall_cons in Hvalid as [Hq0 Hvalid].
    run_bind Hq as old wo Hold. run_write Hq.
    apply IH in Hqs as (-> & Hheap & Hself).
    + simpl in *. rewrite length_app, Nat.add_1_r in *.
      split; [done|]. split; [|done].
      rewrite Hheap, <- app_assoc. simpl. do 2 f_equal.
      apply map_ext_in. intros l Hl. rewrite Forall_forall in Hvalid.
      apply list_elem_of_In, Hvalid in Hl. by rewrite obj_alloc_old.
    + simpl. eapply Forall_impl; [exact Hvalid|]. intros l Hl. simpl in Hl.
      rewrite length_app. lia.
Qed.

Lemma copies_without_projection (qs : list Query) :
  Forall2 copy_without_projection qs
          (map (fun old => Query_update (Query_new (q_kind old) None) old) qs).
Proof.
  induction qs as [|q qs IH]; constructor; [|done].
  split; [done|]. split; [|done]. simpl. apply (right_id_L ∅ (∪)).
Qed.

(** What the guard does when it fires. *)
Lemma update_projection_state_fires field lookup_type w u w1 q0 p :
  _update_projection_state field lookup_type w = inr (u, w1) ->
  forbids_projection field lookup_type = true ->
  head (queries (self w)) = Some q0 -> proj_at w q0 = Some p -> f_column field ∈ p ->
  allocated w ->
  queries (self w1) = seq (length (heap w)) (length (queries (self w))) /\
  heap w1
  = heap w ++ map (fun old => Query_update (Query_new (q_kind old) None) old) (pending w).
Proof.
  unfold _update_projection_state. intros H Hforbid Hq0 Hp Hin Hvalid.
  run_bind H as q0' wq Hq0'. apply query_get_inr in Hq0' as [-> Hq0'].
  assert (q0' = q0) as -> by congruence.
  run_bind H as q wq' Hq. unfold proj_at in Hp. rewrite Hp in H.
  apply str_in_spec in Hin. rewrite Hin in H.
  destruct (bool_decide (p = [])) eqn:Hnil.
  { apply bool_decide_eq_true in Hnil. subst p. discriminate Hin. }
  cbn [orb negb] in H. unfold forbids_projection in Hforbid. rewrite Hforbid in H.
  run_bind H as qs wqs Hqs. run_bind H as new_queries w2 Hloop. run_write H.
  apply copy_loop in Hloop as (-> & Hheap & Hself); [|exact Hvalid].
  simpl. split; [done|]. rewrite Hheap. unfold pending. by rewrite map_map.
Qed.

Lemma pending_after_guard field lookup_type w u w1 q0 p :
  _update_projection_state field lookup_type w = inr (u, w1) ->
  forbids_projection field lookup_type = true ->
  head (queries (self w)) = Some q0 -> proj_at w q0 = Some p -> f_column field ∈ p ->
  allocated w ->
  pending w1 = map (fun old => Query_update (Query_new (q_kind old) None) old) (pending w).
Proof.
  intros H Hforbid Hq0 Hp Hin Hvalid.
  destruct (update_projection_state_fires _ _ _ _ _ _ _ H Hforbid Hq0 Hp Hin Hvalid)
    as [Hqs Hheap].
  unfold pending at 1. rewrite Hqs, Hheap.
  replace (length (queries (self w)))
    with (length (map (fun old => Query_update (Query_new (q_kind old) None) old) (pending w)))
    by (unfold pending; by rewrite !length_map).
  apply obj_app_seq.
Qed.

(** X22: the projection guard, for a field whose own column is listed in the
    projection of the first pending query, with a storage type or a lookup
    that forbids the projection.  The guard replaces every pending query by
    a copy of the same kind with the same filters and no projection; after
    the call of [_apply_filter] no pending query has a projection; and no
    native query handed to the executor has the column in its projection. *)
Theorem projection_guard (model : Model) :
  (forall field lookup_type w u w1 q0 p,
     _update_projection_state field lookup_type w = inr (u, w1) ->
     forbids_projection field lookup_type = true ->
     head (queries (self w)) = Some q0 -> proj_at w q0 = Some p -> f_column field ∈ p ->
     Forall (fun q => q_projection q = None) (pending w1) /\
     (allocated w -> Forall2 copy_without_projection (pending w) (pending w1))) /\
  (forall ds field lookup_type negated value w r w' q0 p,
     _apply_filter ds model field lookup_type negated value None w = inr (r, w') ->
     forbids_projection field lookup_type = true ->
     head (queries (self w)) = Some q0 -> proj_at w q0 = Some p -> f_column field ∈ p ->
     Forall (fun q => q_projection q = None) (pending w')) /\
  (forall py_str ds select where_ w u w',
     length (queries (self w)) <= 1 ->
     execute_appengine_query py_str ds model (SelectQuery select where_) w = inr (u, w') ->
     forall leaf field lookup_type value,
       leaf ∈ leaves where_ ->
       _parse_child model leaf = inr (field, lookup_type, value) ->
       forbids_projection field lookup_type = true ->
       forall q p, q ∈ native_queries w' -> q_projection q = Some p -> f_column field ∉ p).
Proof.
  split; [|split].
  - intros field lookup_type w u w1 q0 p Hrun Hforbid Hq0 Hp Hin. split.
    + apply update_projection_state_spec in Hrun as (_ & _ & Hguard).
      apply unprojected_pending. eauto.
    + intros Hvalid.
      rewrite (pending_after_guard _ _ _ _ _ _ _ Hrun Hforbid Hq0 Hp Hin Hvalid).
      apply copies_without_projection.
  - intros ds field lookup_type negated value w r w' q0 p Hrun Hforbid Hq0 Hp Hin.
    apply apply_filter_spec in Hrun as (_ & _ & _ & Hguard).
    apply unprojected_pending. eauto.
  - intros py_str ds select where_ w u w' Hone Hrun leaf field lookup_type value
           Hleaf Hparse Hforbid q p Hq Hp.
    apply execute_select_native in Hrun as (w0 & w1 & Hq0 & Hlow & Hnative & _); [|done].
    destruct Hlow as (_ & _ & _ & Havoid).
    rewrite Hnative in Hq. eapply avoids_pending; [|exact Hq|exact Hp].
    eapply Havoid; [|exact Hleaf|exact Hparse|exact Hforbid].
    unfold tail_unprojected. rewrite Hq0. constructor.
Qed.

(** The third scenario of the spec: [Doc] selected on [title, body] and
    filtered by [title = "x"]. *)
Lemma projection_guard_witness :
  Forall (fun q => forall p, q_projection q = Some p -> "title" ∉ p)
         (native_queries (after_select Doc ["title"; "body"]
                            (Node AND false [leaf_on f_title "exact" (VList [VStr "x"])]))).
Proof.
  apply Forall_forall. intros q Hq p Hp. revert q p Hq Hp.
  destruct (projection_guard Doc) as (_ & _ & Hguard).
  apply (Hguard str_of_text two_posts ["title"; "body"]
           (Node AND false [leaf_on f_title "exact" (VList [VStr "x"])])
           World_init tt _
           ltac:(simpl; lia) ltac:(by vm_compute)
           (mkLeaf None "title" f_title "exact" VNone (VList [VStr "x"]))
           f_title "exact" (VStr "x")).
  - simpl. apply list_elem_of_singleton. reflexivity.
  - reflexivity.
  - reflexivity.
Defined.

(** X23: the filter that sets off the guard is lost.  The query to update
    is chosen before the guard runs, so a lookup with an operator sets its
    filter on the query that was pending then; the queries pending
    afterwards are the copies the guard made, with the filters the queries
    had before the call and not the new one. *)
Theorem guarded_filter_is_lost (ds : Datastore) (model : Model) (field : Field)
    (lookup_type op : string) (negated : PyArg) (value : Value)
    (w : World) (r : option Triple) (w' : World) (q0 : loc) (p : list string) :
  dict_get OPERATORS_MAP lookup_type = Some (Some op) ->
  forbids_projection field lookup_type = true ->
  head (queries (self w)) = Some q0 -> proj_at w q0 = Some p -> f_column field ∈ p ->
  allocated w ->
  _apply_filter ds model field lookup_type negated value None w = inr (r, w') ->
  Forall2 copy_without_projection (pending w) (pending w') /\
  (q0 ∉ queries (self w')) /\
  obj (heap w') q0
  = dict_setitem (obj (heap w) q0) (filter_column field +:+ " " +:+ op) value.
Proof.
  intros Hop Hforbid Hq0 Hp Hin Hvalid H.
  assert (q0 < length (heap w)) as Hq0valid.
  { unfold allocated in Hvalid. destruct (queries (self w)) as [|q qs]; [discriminate Hq0|].
    injection Hq0 as ->. by apply Forall_cons in Hvalid as [? _]. }
  unfold _apply_filter, _apply_filter_body at 1 in H.
  run_bind H as target wt Htarget. apply query_get_inr in Htarget as [-> Htarget].
  assert (target = q0) as -> by congruence.
  rewrite Hop in H. run_bind H as u1 w1 Hups.
  pose proof (pending_after_guard _ _ _ _ _ _ _ Hups Hforbid Hq0 Hp Hin Hvalid) as Hpending.
  destruct (update_projection_state_fires _ _ _ _ _ _ _ Hups Hforbid Hq0 Hp Hin Hvalid)
    as [Hqs Hheap].
  run_bind H as q wq Hq. run_bind H as q' wq' Hset.
  apply Query_setitem_inr in Hpure as [_ ->].
  run_bind H as u2 w2 Hstore. run_write Hstore. run_step H. simpl.
  assert (obj (heap w1) q0 = obj (heap w) q0) as Hold.
  { rewrite Hheap. unfold obj. by rewrite lookup_app_l. }
  split; [|split].
  - assert (pending {| self := self w1;
                       heap := <[q0 := dict_setitem (obj (heap w1) q0)
                                         ((if f_primary_key field then "__key__"
                                           else f_column field) +:+ " " +:+ op) value]>
                                 (heap w1);
                       cache := cache w1; trace := trace w1 |} = pending w1) as ->.
    { unfold pending. simpl. apply map_ext_in. intros l Hl.
      rewrite Hqs in Hl. apply in_seq in Hl.
      unfold obj. rewrite list_lookup_insert_ne; [done|lia]. }
    rewrite Hpending. apply copies_without_projection.
  - rewrite Hqs. intros Hl. apply list_elem_of_In, in_seq in Hl. lia.
  - rewrite Hold. unfold obj at 1.
    rewrite list_lookup_insert_eq; [done|]. rewrite Hheap, length_app. lia.
Qed.

Lemma guarded_filter_is_lost_witness :
  exists r w',
    _apply_filter two_posts Doc f_title "exact" (ABool false) (VStr "x") None
                  (after_select Doc ["title"; "body"] (Node AND false []))
    = inr (r, w') /\
    Forall2 copy_without_projection
            (pending (after_select Doc ["title"; "body"] (Node AND false []))) (pending w') /\
    (0 ∉ queries (self w')) /\
    obj (heap w') 0
    = dict_setitem (obj (heap (after_select Doc ["title"; "body"] (Node AND false []))) 0)
                   "title =" (VStr "x").
Proof.
  eexists _, _. split; [by vm_compute|].
  eapply (guarded_filter_is_lost two_posts Doc f_title "exact" "=" (ABool false) (VStr "x")
            (after_select Doc ["title"; "body"] (Node AND false [])) _ _ 0 ["title"; "body"]).
  - reflexivity.
  - reflexivity.
  - reflexivity.
  - reflexivity.
  - apply elem_of_cons. by left.
  - by apply (bool_decide_unpack _).
  - by vm_compute.
Defined.

(** In the third scenario of the spec the query that is run has lost its
    projection and has no filter at all. *)
Example guarded_filter_is_not_emitted :
  map (fun q => (q_projection q, map_to_list (q_filters q)))
      (native_queries (after_select Doc ["title"; "body"]
                         (Node AND false [leaf_on f_title "exact" (VList [VStr "x"])])))
  = [(None, [])].
Proof. by vm_compute. Qed.
